(** * townsville-logger: a shallow embedding of the logging facade

    The repository ships two generations of the same facade around winston:
    - the current entry point (class [TownsvilleLogger], winston 3 formats,
      console and file transports, a transport counter), embedded in
      [Module Townsville];
    - the older entry point (winston 2 options; console, file and syslog
      transports), whose configuration side is embedded in
      [Module CsLogger].

    Module-level [let]/[var] variables of the JavaScript files become the
    fields of a [state] record that every operation threads explicitly; a
    JavaScript [throw] becomes the [Throw] completion, and the state reached
    at the moment of the throw is kept, as it is in the running program. *)

From Stdlib Require Import ZArith NArith Ascii String List Lia Permutation.
From stdpp Require Import base option gmap strings list fin_maps pretty.

Local Open Scope string_scope.
Local Open Scope Z_scope.

(** ** JavaScript values, as far as the facade looks at them *)

(** What [JSON.stringify] does on an object: it returns a text, returns
    [undefined] (a [toJSON] that yields nothing), or throws (a circular
    structure, a BigInt member). *)
Inductive json_outcome : Type :=
| JsonText (s : string)
| JsonUndefined
| JsonThrows.

(** Numbers are the integers (the facade only tests them for truthiness and
    passes them on); [VObject] is a plain data object, known by what
    [JSON.stringify] makes of it; [VFunction] is a function value such as
    [getUTCTimestamp]. Neither carries a [toLowerCase] method. *)
Inductive value : Type :=
| VUndefined
| VNull
| VBool (b : bool)
| VNumber (n : Z)
| VNaN
| VString (s : string)
| VObject (j : json_outcome)
| VFunction.

(** ToBoolean. *)
Definition truthy (v : value) : bool :=
  match v with
  | VUndefined | VNull | VNaN => false
  | VBool b => b
  | VNumber n => negb (n =? 0)
  | VString s => negb (String.eqb s "")
  | VObject _ | VFunction => true
  end.

(** The [typeof] operator. *)
Definition typeof (v : value) : string :=
  match v with
  | VUndefined => "undefined"
  | VNull | VObject _ => "object"
  | VBool _ => "boolean"
  | VNumber _ | VNaN => "number"
  | VString _ => "string"
  | VFunction => "function"
  end.

(** [a || b]. *)
Definition js_or (a b : value) : value := if truthy a then a else b.

(** [v === false] and [v === undefined]. *)
Definition is_false (v : value) : bool :=
  match v with VBool false => true | _ => false end.

Definition is_undefined (v : value) : bool :=
  match v with VUndefined => true | _ => false end.

(** [String.prototype.toLowerCase], on the letters A-Z. Strings are byte
    strings; the comparisons of the facade are all against lower-case ASCII
    literals made of letters whose only upper-case forms are ASCII. *)
Definition lower_ascii (c : ascii) : ascii :=
  let n := N_of_ascii c in
  if ((65 <=? n) && (n <=? 90))%N then ascii_of_N (n + 32) else c.

Fixpoint toLowerCase (s : string) : string :=
  match s with
  | EmptyString => EmptyString
  | String c r => String (lower_ascii c) (toLowerCase r)
  end.

(** ** Exceptions and the state-and-exception monad *)

Inductive exn : Type :=
| Error (message : string)
| TypeError
| BackendError (message : string).

Inductive completion (A : Type) : Type :=
| Normal (a : A)
| Throw (e : exn).
Arguments Normal {A} a.
Arguments Throw {A} e.

(** What [_isToLog] throws while there is no winston logger. *)
Definition not_initialized : exn := Error "Log system is not initialized".

Definition js (S A : Type) : Type := S -> completion A * S.

Definition ret {S A : Type} (a : A) : js S A := fun st => (Normal a, st).

Definition throw {S A : Type} (e : exn) : js S A := fun st => (Throw e, st).

Definition bind {S A B : Type} (m : js S A) (k : A -> js S B) : js S B :=
  fun st =>
    match m st with
    | (Normal a, st') => k a st'
    | (Throw e, st') => (Throw e, st')
    end.

Definition lift {S A : Type} (c : completion A) : js S A := fun st => (c, st).

Definition gets {S A : Type} (f : S -> A) : js S A := fun st => (Normal (f st), st).

Definition modify {S : Type} (f : S -> S) : js S unit := fun st => (Normal tt, f st).

Notation "'let!' x ':=' m 'in' k" := (bind m (fun x => k))
  (at level 10, x name, m at level 200, k at level 200).
Notation "'do!' m 'in' k" := (bind m (fun _ => k))
  (at level 10, m at level 200, k at level 200).

(** [JSON.stringify(v)] for a [v] with [typeof v === 'object']. *)
Definition JSON_stringify (v : value) : completion value :=
  match v with
  | VNull => Normal (VString "null")
  | VObject (JsonText s) => Normal (VString s)
  | VObject JsonUndefined => Normal VUndefined
  | VObject JsonThrows => Throw TypeError
  | _ => Normal VUndefined
  end.

(** ** Plain objects used as string-keyed tables

    [logLevels] starts as the literal [{}], so it inherits from
    [Object.prototype]. The own properties are a [gmap]; the inherited ones
    are the fixed names below. None of the inherited ones is enumerable. *)
Definition Object_prototype_names : list string :=
  [ "constructor"; "__defineGetter__"; "__defineSetter__"; "hasOwnProperty";
    "__lookupGetter__"; "__lookupSetter__"; "isPrototypeOf";
    "propertyIsEnumerable"; "toString"; "valueOf"; "__proto__";
    "toLocaleString" ].

Definition inherited (key : string) : bool :=
  existsb (String.eqb key) Object_prototype_names.

(** What reading a property of such a table yields: a number stored by the
    facade, an inherited member (a function, or the prototype object itself
    for [__proto__]), or [undefined]. *)
Inductive prop_value : Type :=
| PNumber (n : Z)
| PInherited
| PUndefined.

(** [key in obj]: own or inherited. *)
Definition js_in (key : string) (obj : gmap string Z) : bool :=
  bool_decide (is_Some (obj !! key)) || inherited key.

(** [obj[key]]. *)
Definition js_get (key : string) (obj : gmap string Z) : prop_value :=
  match obj !! key with
  | Some n => PNumber n
  | None => if inherited key then PInherited else PUndefined
  end.

(** [obj[key] = n] for a number [n]: an own property is created or
    overwritten, except for [__proto__], whose inherited setter ignores
    values that are neither an object nor null. *)
Definition js_set (key : string) (n : Z) (obj : gmap string Z) : gmap string Z :=
  if String.eqb key "__proto__" then obj else <[key := n]> obj.

(** [p >= level] for a number [level]: an inherited member and [undefined]
    convert to NaN, and every comparison with NaN is false. *)
Definition js_ge (p : prop_value) (level : Z) : bool :=
  match p with
  | PNumber n => level <=? n
  | PInherited | PUndefined => false
  end.

(** [util.format('%s', x)] for [x] a string or [undefined]. *)
Definition format_s (x : option string) : string :=
  match x with
  | Some s => s
  | None => "undefined"
  end.

(** [util.format('%d', n)] for a non-negative integer. *)
Definition format_d (n : N) : string := pretty n.

(** ** The current entry point (index.js, class TownsvilleLogger) *)
Module Townsville.

Definition DEFAULT_LOGLEVEL : string := "info".
Definition DEFAULT_LOGFILE : string := "logging.log".
Definition DEFAULT_LOGGER_NAME : string := "logger".

Definition NR_FATAL : Z := 0.
Definition NR_ERROR : Z := 10.
Definition NR_WARN : Z := 20.
Definition NR_INFO : Z := 30.
Definition NR_DEBUG : Z := 40.
Definition NR_TRACE : Z := 50.

Definition SN_NONE : Z := 0.
Definition SN_SIMPLE : Z := 1.
Definition SN_FULL : Z := 2.

(** *** Settings, as the caller hands them to [init] *)

Record rolling_settings : Type := {
  rf_maxSize : value;
  rf_maxFiles : value;
  rf_tailable : value
}.

(** One destination section ([console] or [file]); a property that is not
    there reads as [VUndefined]. *)
Record transport_settings : Type := {
  ts_timestamp : value;
  ts_colorize : value;
  ts_path : value;
  ts_tailable : value;
  ts_rollingFile : option rolling_settings
}.

(** The [syslog] section, which this entry point never reads. *)
Record syslog_settings : Type := {
  sy_host : value;
  sy_port : value;
  sy_protocol : value;
  sy_path : value;
  sy_facility : value;
  sy_type : value
}.

Record settings : Type := {
  s_name : option string;
  s_level : value;
  s_levels : option (list (string * value));
  s_showName : value;
  s_showPid : value;
  s_console : option transport_settings;
  s_file : option transport_settings;
  s_syslog : option syslog_settings
}.

(** The same settings with another [syslog] section. *)
Definition with_syslog (y : option syslog_settings) (s : settings) : settings :=
  {| s_name := s_name s; s_level := s_level s; s_levels := s_levels s;
     s_showName := s_showName s; s_showPid := s_showPid s;
     s_console := s_console s; s_file := s_file s; s_syslog := y |}.

(** *** What is handed to winston *)

(** [getFormat]'s result: splat always, colorize and timestamp optional. *)
Record format_spec : Type := {
  colorized : bool;
  timestamped : bool
}.

(** The [opts] object of a transport; a property never assigned reads as
    [VUndefined]. *)
Record transport_opts : Type := {
  level : string;
  filename : value;
  format : format_spec;
  maxsize : value;
  maxFiles : value;
  tailable : value
}.

Inductive transport : Type :=
| Console (opts : transport_opts)
| File (opts : transport_opts).

Definition opts_of (t : transport) : transport_opts :=
  match t with Console o | File o => o end.

(** The single winston logger: its transports, the custom levels, the
    [emitErrs] flag, and the calls it has received, oldest first. *)
Record winston_logger : Type := {
  transports : list transport;
  levels : list (string * Z);
  emitErrs : bool;
  entries : list (string * list value)
}.

(** *** Module state *)

Record state : Type := {
  logLevel : Z;
  logLevels : gmap string Z;
  appName : option string;
  showName : option Z;
  showPid : option bool;
  log : option winston_logger;
  nrTransports : nat
}.

Definition CUSTOM_DEFS_levels : list (string * Z) :=
  [ ("fatal", NR_FATAL); ("error", NR_ERROR); ("warn", NR_WARN);
    ("info", NR_INFO); ("debug", NR_DEBUG); ("trace", NR_TRACE) ].

(** *** Level codec *)

Definition numLevel (value : value) : completion Z :=
  match value with
  | VString s =>
      let l := toLowerCase s in
      Normal
        (if String.eqb l "fatal" then NR_FATAL
         else if String.eqb l "error" then NR_ERROR
         else if String.eqb l "warn" then NR_WARN
         else if String.eqb l "info" then NR_INFO
         else if String.eqb l "debug" then NR_DEBUG
         else if String.eqb l "trace" then NR_TRACE
         else NR_TRACE)
  | _ => Throw TypeError
  end.

Definition strLevel (value : Z) : string :=
  if value =? NR_FATAL then "fatal"
  else if value =? NR_ERROR then "error"
  else if value =? NR_WARN then "warn"
  else if value =? NR_INFO then "info"
  else if value =? NR_DEBUG then "debug"
  else if value =? NR_TRACE then "trace"
  else "trace".

(** *** Settings resolution *)

Definition getShowName (value : value) : Z :=
  match value with
  | VString s =>
      let l := toLowerCase s in
      if String.eqb l "full" then SN_FULL
      else if String.eqb l "none" || String.eqb l "false" then SN_NONE
      else SN_SIMPLE
  | _ => if truthy value then SN_SIMPLE else SN_NONE
  end.

Definition set_logLevels (f : gmap string Z -> gmap string Z) (st : state) : state :=
  {| logLevel := logLevel st; logLevels := f (logLevels st);
     appName := appName st; showName := showName st; showPid := showPid st;
     log := log st; nrTransports := nrTransports st |}.

Definition set_logLevel (n : Z) (st : state) : state :=
  {| logLevel := n; logLevels := logLevels st;
     appName := appName st; showName := showName st; showPid := showPid st;
     log := log st; nrTransports := nrTransports st |}.

(** The [forEach] over [Object.keys(settings)]: each entry is converted and
    then stored; a conversion that throws stops the loop with the earlier
    entries already stored. *)
Fixpoint getLogLevels (settings : list (string * value)) : js state unit :=
  match settings with
  | [] => ret tt
  | (entry, v) :: rest =>
      let! n := lift (numLevel v) in
      do! modify (set_logLevels (js_set entry n)) in
      getLogLevels rest
  end.

(** The body of the [for ... in] loop of [determineTransLevel]. *)
Definition raise_to (minLevel : Z) (kv : string * Z) : Z :=
  if minLevel <? snd kv then snd kv else minLevel.

Definition determineTransLevel (st : state) : string :=
  strLevel (fold_left raise_to (map_to_list (logLevels st)) (logLevel st)).

Definition getFormat (settings : transport_settings) : format_spec :=
  {| colorized := truthy (ts_colorize settings);
     timestamped := negb (is_false (ts_timestamp settings)) |}.

Definition getConsoleTransport (settings : transport_settings) (level : string)
  : transport :=
  Console {| level := level; filename := VUndefined; format := getFormat settings;
             maxsize := VUndefined; maxFiles := VUndefined; tailable := VUndefined |}.

Definition getFileTransport (settings : transport_settings) (level : string)
  : transport :=
  let filename := js_or (ts_path settings) (VString DEFAULT_LOGFILE) in
  match ts_rollingFile settings with
  | Some rollingFile =>
      File {| level := level; filename := filename; format := getFormat settings;
              maxsize := js_or (rf_maxSize rollingFile) (VNumber 10000000);
              maxFiles := js_or (rf_maxFiles rollingFile) (VNumber 10);
              tailable := if is_undefined (rf_tailable rollingFile)
                          then VBool true else ts_tailable settings |}
  | None =>
      File {| level := level; filename := filename; format := getFormat settings;
              maxsize := VUndefined; maxFiles := VUndefined; tailable := VUndefined |}
  end.

Definition DEFAULT_SETTINGS : settings :=
  {| s_name := Some DEFAULT_LOGGER_NAME;
     s_level := VString DEFAULT_LOGLEVEL;
     s_levels := None;
     s_showName := VBool true;
     s_showPid := VBool false;
     s_console := Some {| ts_timestamp := VFunction; ts_colorize := VUndefined;
                          ts_path := VUndefined; ts_tailable := VUndefined;
                          ts_rollingFile := None |};
     s_file := None;
     s_syslog := None |}.

Section Backend.

(** winston's transport constructors are outside the repository: [None]
    when [new winston.transports.X(opts)] returns, [Some e] when it throws. *)
Variable rejects : transport -> option exn.

Definition construct (t : transport) : js state transport :=
  match rejects t with
  | None => ret t
  | Some e => throw e
  end.

Definition evaluateSettings (settings : settings) : js state unit :=
  fun st =>
    match log st with
    | Some _ => (Normal tt, st)
    | None =>
        let body : js state unit :=
          do! modify (fun st =>
                {| logLevel := logLevel st; logLevels := logLevels st;
                   appName := Some (match s_name settings with
                                    | Some n => if String.eqb n "" then DEFAULT_LOGGER_NAME else n
                                    | None => DEFAULT_LOGGER_NAME
                                    end);
                   showName := Some (getShowName (s_showName settings));
                   showPid := Some (truthy (s_showPid settings));
                   log := log st; nrTransports := nrTransports st |}) in
          do! match s_levels settings with
              | Some lv => getLogLevels lv
              | None => ret tt
              end in
          do! (if truthy (s_level settings)
               then let! n := lift (numLevel (s_level settings)) in
                    modify (set_logLevel n)
               else ret tt) in
          let! transLevel := gets determineTransLevel in
          let! from_console :=
            match s_console settings with
            | Some c => let! t := construct (getConsoleTransport c transLevel) in ret [t]
            | None => ret []
            end in
          let! from_file :=
            match s_file settings with
            | Some f => let! t := construct (getFileTransport f transLevel) in ret [t]
            | None => ret []
            end in
          let transports := (from_console ++ from_file)%list in
          modify (fun st =>
            {| logLevel := logLevel st; logLevels := logLevels st;
               appName := appName st; showName := showName st; showPid := showPid st;
               log := Some {| transports := transports;
                              levels := CUSTOM_DEFS_levels;
                              emitErrs := false;
                              entries := [] |};
               nrTransports := length transports |})
        in body st
    end.

Definition init (settings : option settings) : js state unit :=
  evaluateSettings (match settings with Some s => s | None => DEFAULT_SETTINGS end).

End Backend.

Definition deinit : js state unit :=
  modify (fun st =>
    {| logLevel := match numLevel (VString DEFAULT_LOGLEVEL) with
                   | Normal n => n
                   | Throw _ => logLevel st
                   end;
       logLevels := ∅;
       appName := None; showName := None; showPid := None;
       log := None; nrTransports := nrTransports st |}).

Definition handleFinish : js state unit :=
  modify (fun st =>
    {| logLevel := logLevel st; logLevels := logLevels st;
       appName := appName st; showName := showName st; showPid := showPid st;
       log := log st;
       nrTransports := if (0 <? nrTransports st)%nat
                       then (nrTransports st - 1)%nat else nrTransports st |}).

(** The module as it is when loaded. *)
Definition loaded : state :=
  {| logLevel := match numLevel (VString DEFAULT_LOGLEVEL) with
                   | Normal n => n
                   | Throw _ => NR_TRACE
                   end;
     logLevels := ∅;
     appName := None; showName := None; showPid := None;
     log := None; nrTransports := 0%nat |}.

(** *** class TownsvilleLogger *)

Record logger : Type := {
  _name : string;
  _level : prop_value;
  _pid : N
}.

(** The constructor; [pid] is [process.pid]. *)
Definition TownsvilleLogger (pid : N) (name : string) (st : state) : logger :=
  {| _name := name;
     _level := if js_in name (logLevels st)
               then js_get name (logLevels st)
               else PNumber (logLevel st);
     _pid := pid |}.

Definition createLogger (pid : N) (name : string) : js state logger :=
  gets (TownsvilleLogger pid name).

(** The [arguments] object of a logging call: the format string and the
    values that follow it. *)
Record arguments : Type := {
  arg0 : string;
  rest : list value
}.

Definition _isToLog (this : logger) (level : Z) : js state bool :=
  fun st =>
    match log st with
    | None => (Throw not_initialized, st)
    | Some _ => (Normal (js_ge (_level this) level), st)
    end.

(** The loop over [args[1..]]: values of type 'object' are replaced by
    their JSON text, left to right. *)
Fixpoint stringify_objects (args : list value) : completion (list value) :=
  match args with
  | [] => Normal []
  | arg :: more =>
      match (if String.eqb (typeof arg) "object"
             then JSON_stringify arg else Normal arg) with
      | Normal arg' =>
          match stringify_objects more with
          | Normal more' => Normal (arg' :: more')
          | Throw e => Throw e
          end
      | Throw e => Throw e
      end
  end.

Definition _addToArgs (this : logger) (args : arguments) : js state arguments :=
  fun st =>
    let shows_pid := match showPid st with Some b => b | None => false end in
    if bool_decide (showName st = Some SN_NONE) && negb shows_pid
    then (Normal args, st)
    else
      let addOn := "" in
      let addOn :=
        if shows_pid then addOn +:+ ("#" +:+ format_d (_pid this)) else addOn in
      let addOn :=
        if match showName st with Some n => SN_NONE <? n | None => false end
        then
          let addOn := if shows_pid then addOn +:+ "-" else addOn in
          if bool_decide (showName st = Some SN_FULL)
          then addOn +:+ (format_s (appName st) +:+ "." +:+ _name this)
          else addOn +:+ _name this
        else addOn in
      match stringify_objects (rest args) with
      | Normal rest' =>
          (Normal {| arg0 := "[" +:+ addOn +:+ "] " +:+ arg0 args; rest := rest' |}, st)
      | Throw e => (Throw e, st)
      end.

(** [log.<method>.apply(null, arguments)]: the call is handed to winston. *)
Definition emit (method : string) (args : arguments) : js state unit :=
  fun st =>
    match log st with
    | None => (Throw TypeError, st)
    | Some w =>
        (Normal tt,
         {| logLevel := logLevel st; logLevels := logLevels st;
            appName := appName st; showName := showName st; showPid := showPid st;
            log := Some {| transports := transports w; levels := levels w;
                           emitErrs := emitErrs w;
                           entries := (entries w ++ [(method, VString (arg0 args) :: rest args)])%list |};
            nrTransports := nrTransports st |})
    end.

(** The common shape of the six severity methods. *)
Definition severity (level : Z) (method : string) (this : logger) (args : arguments)
  : js state unit :=
  let! accepted := _isToLog this level in
  let! n := gets nrTransports in
  if accepted && negb (n =? 0)%nat
  then let! args' := _addToArgs this args in emit method args'
  else ret tt.

Definition fatal := severity NR_FATAL "fatal".
Definition isFatal (this : logger) := _isToLog this NR_FATAL.
Definition error := severity NR_ERROR "error".
Definition isError (this : logger) := _isToLog this NR_ERROR.
Definition warn := severity NR_WARN "warn".
Definition isWarn (this : logger) := _isToLog this NR_WARN.
Definition info := severity NR_INFO "info".
Definition isInfo (this : logger) := _isToLog this NR_INFO.
Definition debug := severity NR_DEBUG "debug".
Definition isDebug (this : logger) := _isToLog this NR_DEBUG.
Definition trace := severity NR_TRACE "trace".
Definition isTrace (this : logger) := _isToLog this NR_TRACE.

(** *** The public surface as a sequence of calls

    Everything a client can do with the module except [deinit]: used to
    state what holds "as long as [deinit] is not called". *)

Inductive level_name : Type :=
| LFatal | LError | LWarn | LInfo | LDebug | LTrace.

Definition rank (l : level_name) : Z :=
  match l with
  | LFatal => NR_FATAL | LError => NR_ERROR | LWarn => NR_WARN
  | LInfo => NR_INFO | LDebug => NR_DEBUG | LTrace => NR_TRACE
  end.

Definition method_of (l : level_name) : string :=
  match l with
  | LFatal => "fatal" | LError => "error" | LWarn => "warn"
  | LInfo => "info" | LDebug => "debug" | LTrace => "trace"
  end.

Definition call_severity (l : level_name) : logger -> arguments -> js state unit :=
  match l with
  | LFatal => fatal | LError => error | LWarn => warn
  | LInfo => info | LDebug => debug | LTrace => trace
  end.

Definition call_predicate (l : level_name) : logger -> js state bool :=
  match l with
  | LFatal => isFatal | LError => isError | LWarn => isWarn
  | LInfo => isInfo | LDebug => isDebug | LTrace => isTrace
  end.

Inductive call : Type :=
| CInit (settings : option settings)
| CCreateLogger (pid : N) (name : string)
| CSeverity (l : level_name) (this : logger) (args : arguments)
| CPredicate (l : level_name) (this : logger)
| CHandleFinish.

Definition run_call (rejects : transport -> option exn) (c : call) (st : state)
  : state :=
  match c with
  | CInit settings => snd (init rejects settings st)
  | CCreateLogger pid name => snd (createLogger pid name st)
  | CSeverity l this args => snd (call_severity l this args st)
  | CPredicate l this => snd (call_predicate l this st)
  | CHandleFinish => snd (handleFinish st)
  end.

Definition run_calls (rejects : transport -> option exn) (cs : list call) (st : state)
  : state :=
  fold_left (fun st c => run_call rejects c st) cs st.

(** What [init] configures. *)
Definition configuration (st : state)
  : option string * option Z * option bool * Z * gmap string Z
    * option (list transport) :=
  (appName st, showName st, showPid st, logLevel st, logLevels st,
   transports <$> log st).

End Townsville.

(** ** The older entry point (index.js, constructor CsLogger) *)
Module CsLogger.

Definition DEFAULT_LOGLEVEL : string := "info".
Definition DEFAULT_LOGFILE : string := "logging.log".
Definition DEFAULT_LOGGER_NAME : string := "logger".

Definition NR_FATAL : Z := 0.
Definition NR_ERROR : Z := 10.
Definition NR_WARN : Z := 20.
Definition NR_INFO : Z := 30.
Definition NR_DEBUG : Z := 40.
Definition NR_TRACE : Z := 50.

Definition SN_NONE : Z := 0.
Definition SN_SIMPLE : Z := 1.
Definition SN_FULL : Z := 2.

Record rolling_settings : Type := {
  rf_maxSize : value;
  rf_maxFiles : value;
  rf_tailable : value
}.

Record transport_settings : Type := {
  ts_timestamp : value;
  ts_json : value;
  ts_colorize : value;
  ts_path : value;
  ts_tailable : value;
  ts_rollingFile : option rolling_settings
}.

Record syslog_settings : Type := {
  sy_host : value;
  sy_port : value;
  sy_protocol : value;
  sy_path : value;
  sy_facility : value;
  sy_type : value
}.

Record settings : Type := {
  s_name : option string;
  s_level : value;
  s_levels : option (list (string * value));
  s_showName : value;
  s_showPid : value;
  s_console : option transport_settings;
  s_file : option transport_settings;
  s_syslog : option syslog_settings
}.

(** The [opts] of the console and file transports. *)
Record transport_opts : Type := {
  timestamp : value;
  json : value;
  colorize : value;
  level : string;
  filename : value;
  maxsize : value;
  maxFiles : value;
  tailable : value
}.

(** The [opts] of the syslog transport. *)
Record syslog_opts : Type := {
  host : value;
  port : value;
  protocol : value;
  path : value;
  facility : value;
  localhost : value;
  sl_timestamp : value;
  type : value;
  app_name : option string;
  sl_level : string
}.

Inductive transport : Type :=
| Console (opts : transport_opts)
| File (opts : transport_opts)
| MappedSyslog (opts : syslog_opts).

Record winston_logger : Type := {
  transports : list transport;
  levels : list (string * Z);
  colors : list (string * string)
}.

Record state : Type := {
  logLevel : Z;
  logLevels : gmap string Z;
  appName : option string;
  showName : option Z;
  showPid : option bool;
  log : option winston_logger
}.

Definition numLevel (value : value) : completion Z :=
  match value with
  | VString s =>
      let l := toLowerCase s in
      Normal
        (if String.eqb l "fatal" then NR_FATAL
         else if String.eqb l "error" then NR_ERROR
         else if String.eqb l "warn" then NR_WARN
         else if String.eqb l "info" then NR_INFO
         else if String.eqb l "debug" then NR_DEBUG
         else if String.eqb l "trace" then NR_TRACE
         else NR_TRACE)
  | _ => Throw TypeError
  end.

Definition strLevel (value : Z) : string :=
  if value =? NR_FATAL then "fatal"
  else if value =? NR_ERROR then "error"
  else if value =? NR_WARN then "warn"
  else if value =? NR_INFO then "info"
  else if value =? NR_DEBUG then "debug"
  else if value =? NR_TRACE then "trace"
  else "trace".

Definition getShowName (value : value) : Z :=
  match value with
  | VString s =>
      let l := toLowerCase s in
      if String.eqb l "full" then SN_FULL
      else if String.eqb l "none" || String.eqb l "false" then SN_NONE
      else SN_SIMPLE
  | _ => if truthy value then SN_SIMPLE else SN_NONE
  end.

Definition set_logLevels (f : gmap string Z -> gmap string Z) (st : state) : state :=
  {| logLevel := logLevel st; logLevels := f (logLevels st);
     appName := appName st; showName := showName st; showPid := showPid st;
     log := log st |}.

Definition set_logLevel (n : Z) (st : state) : state :=
  {| logLevel := n; logLevels := logLevels st;
     appName := appName st; showName := showName st; showPid := showPid st;
     log := log st |}.

Fixpoint getLogLevels (settings : list (string * value)) : js state unit :=
  match settings with
  | [] => ret tt
  | (entry, v) :: rest =>
      let! n := lift (numLevel v) in
      do! modify (set_logLevels (js_set entry n)) in
      getLogLevels rest
  end.

(** Here the loop compares with [>=]. *)
Definition raise_to (minLevel : Z) (kv : string * Z) : Z :=
  if minLevel <=? snd kv then snd kv else minLevel.

Definition determineTransLevel (st : state) : string :=
  strLevel (fold_left raise_to (map_to_list (logLevels st)) (logLevel st)).

Definition getUTCTimestamp : value := VFunction.

Definition getConsoleTransport (settings : transport_settings) (level : string)
  : transport :=
  Console
    {| timestamp := if is_false (ts_timestamp settings) then VBool false else getUTCTimestamp;
       json := if is_undefined (ts_json settings) then VBool false else ts_json settings;
       colorize := if is_undefined (ts_colorize settings) then VBool true else ts_colorize settings;
       level := level;
       filename := VUndefined; maxsize := VUndefined; maxFiles := VUndefined;
       tailable := VUndefined |}.

Definition getFileTransport (settings : transport_settings) (level : string)
  : transport :=
  let timestamp := if is_false (ts_timestamp settings) then VBool false else getUTCTimestamp in
  let json := if is_undefined (ts_json settings) then VBool false else ts_json settings in
  let colorize := if is_undefined (ts_colorize settings) then VBool false else ts_colorize settings in
  let filename := js_or (ts_path settings) (VString DEFAULT_LOGFILE) in
  match ts_rollingFile settings with
  | Some rollingFile =>
      File {| timestamp := timestamp; json := json; colorize := colorize;
              level := level; filename := filename;
              maxsize := js_or (rf_maxSize rollingFile) (VNumber 10000000);
              maxFiles := js_or (rf_maxFiles rollingFile) (VNumber 10);
              tailable := if is_undefined (rf_tailable rollingFile)
                          then VBool true else ts_tailable settings |}
  | None =>
      File {| timestamp := timestamp; json := json; colorize := colorize;
              level := level; filename := filename;
              maxsize := VUndefined; maxFiles := VUndefined; tailable := VUndefined |}
  end.

Section Runtime.

(** The global [isNaN], [os.hostname()], and the transport constructors of
    winston and winston-syslog, all outside the repository. *)
Variable isNaN : value -> bool.
Variable hostname : string.
Variable rejects : transport -> option exn.

Definition getSyslogTransport (settings : syslog_settings) (level : string)
  : js state transport :=
  let! appName := gets appName in
  ret (MappedSyslog
         {| host := sy_host settings;
            port := if isNaN (sy_port settings) then VUndefined else sy_port settings;
            protocol := sy_protocol settings;
            path := sy_path settings;
            facility := sy_facility settings;
            localhost := if truthy (sy_host settings) then sy_host settings
                         else VString hostname;
            sl_timestamp := VBool false;
            type := if truthy (sy_type settings) then sy_type settings
                    else VString "RFC5425";
            app_name := appName;
            sl_level := level |}).

Definition construct (t : transport) : js state transport :=
  match rejects t with
  | None => ret t
  | Some e => throw e
  end.

Definition evaluateSettings (settings : settings) : js state unit :=
  fun st =>
    match log st with
    | Some _ => (Normal tt, st)
    | None =>
        let body : js state unit :=
          do! modify (fun st =>
                {| logLevel := logLevel st; logLevels := logLevels st;
                   appName := Some (match s_name settings with
                                    | Some n => if String.eqb n "" then DEFAULT_LOGGER_NAME else n
                                    | None => DEFAULT_LOGGER_NAME
                                    end);
                   showName := Some (getShowName (s_showName settings));
                   showPid := Some (truthy (s_showPid settings));
                   log := log st |}) in
          do! match s_levels settings with
              | Some lv => getLogLevels lv
              | None => ret tt
              end in
          do! (if truthy (s_level settings)
               then let! n := lift (numLevel (s_level settings)) in
                    modify (set_logLevel n)
               else ret tt) in
          let! transLevel := gets determineTransLevel in
          let! from_console :=
            match s_console settings with
            | Some c => let! t := construct (getConsoleTransport c transLevel) in ret [t]
            | None => ret []
            end in
          let! from_file :=
            match s_file settings with
            | Some f => let! t := construct (getFileTransport f transLevel) in ret [t]
            | None => ret []
            end in
          let! from_syslog :=
            match s_syslog settings with
            | Some y => let! o := getSyslogTransport y transLevel in
                        let! t := construct o in ret [t]
            | None => ret []
            end in
          modify (fun st =>
            {| logLevel := logLevel st; logLevels := logLevels st;
               appName := appName st; showName := showName st; showPid := showPid st;
               log := Some {| transports := (from_console ++ from_file ++ from_syslog)%list;
                              levels := [ ("fatal", NR_FATAL); ("error", NR_ERROR);
                                          ("warn", NR_WARN); ("info", NR_INFO);
                                          ("debug", NR_DEBUG); ("trace", NR_TRACE) ];
                              colors := [ ("fatal", "magenta"); ("error", "red");
                                          ("warn", "yellow"); ("info", "green");
                                          ("debug", "blue"); ("trace", "grey") ] |} |})
        in body st
    end.

Definition DEFAULT_SETTINGS : settings :=
  {| s_name := Some DEFAULT_LOGGER_NAME;
     s_level := VString DEFAULT_LOGLEVEL;
     s_levels := None;
     s_showName := VBool true;
     s_showPid := VBool false;
     s_console := Some {| ts_timestamp := getUTCTimestamp; ts_json := VUndefined;
                          ts_colorize := VUndefined; ts_path := VUndefined;
                          ts_tailable := VUndefined; ts_rollingFile := None |};
     s_file := None;
     s_syslog := None |}.

Definition init (settings : option settings) : js state unit :=
  evaluateSettings (match settings with Some s => s | None => DEFAULT_SETTINGS end).

End Runtime.

Definition deinit : js state unit :=
  modify (fun st =>
    {| logLevel := match numLevel (VString DEFAULT_LOGLEVEL) with
                   | Normal n => n
                   | Throw _ => logLevel st
                   end;
       logLevels := ∅;
       appName := None; showName := None; showPid := None;
       log := None |}).

Definition loaded : state :=
  {| logLevel := match numLevel (VString DEFAULT_LOGLEVEL) with
                 | Normal n => n
                 | Throw _ => NR_TRACE
                 end;
     logLevels := ∅;
     appName := None; showName := None; showPid := None;
     log := None |}.

End CsLogger.

(** ** The specification's wording, for the refinement statements *)
Module Spec.

(** [rankOf]: a lookup of the (lower-cased) name in the table of declared
    levels, Trace when the name is not in it. *)
Definition rankOf (name : string) : Z :=
  match find (fun kv => String.eqb name (fst kv)) Townsville.CUSTOM_DEFS_levels with
  | Some kv => snd kv
  | None => Townsville.NR_TRACE
  end.

(** Whether a name, once lower-cased, is one of the six level names. *)
Definition recognized (name : string) : bool :=
  existsb (String.eqb (toLowerCase name)) (map fst Townsville.CUSTOM_DEFS_levels).

(** The name part of a prefix: the module name, or the application name
    joined to it in Full mode. *)
Definition name_part (showName : Z) (appName moduleName : string) : string :=
  if showName =? Townsville.SN_FULL then appName +:+ "." +:+ moduleName else moduleName.

(** The addon: the pid alone, the name part alone, or both joined by "-". *)
Definition addon (showName : Z) (showPid : bool) (appName moduleName : string) (pid : N)
  : string :=
  match showPid, Z.eqb showName Townsville.SN_NONE with
  | true, true => "#" +:+ pretty pid
  | true, false => "#" +:+ pretty pid +:+ "-" +:+ name_part showName appName moduleName
  | false, _ => name_part showName appName moduleName
  end.

(** The first argument of an accepted call. *)
Definition first_argument (showName : Z) (showPid : bool) (appName moduleName : string)
  (pid : N) (f : string) : string :=
  if (showName =? Townsville.SN_NONE) && negb showPid then f
  else "[" +:+ addon showName showPid appName moduleName pid +:+ "] " +:+ f.

(** The largest rank among the default level and the values of the
    per-module table. *)
Definition least_severe (m : Z) (defaultLevel : Z) (perModule : gmap string Z) : Prop :=
  (m = defaultLevel \/ exists k, perModule !! k = Some m)
  /\ defaultLevel <= m
  /\ forall k v, perModule !! k = Some v -> v <= m.

End Spec.

(** ** Inputs used to exercise the statements *)
Module Samples.

Definition accept_all (t : Townsville.transport) : option exn := None.

Definition no_section : Townsville.transport_settings :=
  {| Townsville.ts_timestamp := VBool false; Townsville.ts_colorize := VUndefined;
     Townsville.ts_path := VUndefined; Townsville.ts_tailable := VUndefined;
     Townsville.ts_rollingFile := None |}.

(** [{name: "mylog", level: "info", levels: {aap: "error"}, showName: true,
     showPid: true, console: {timestamp: false}}] *)
Definition aap_error : Townsville.settings :=
  {| Townsville.s_name := Some "mylog";
     Townsville.s_level := VString "info";
     Townsville.s_levels := Some [("aap", VString "error")];
     Townsville.s_showName := VBool true;
     Townsville.s_showPid := VBool true;
     Townsville.s_console := Some no_section;
     Townsville.s_file := None;
     Townsville.s_syslog := None |}.

(** [{level: "trace", levels: {noot: "debug"}, file: {path: "/tmp/t.log"}}] *)
Definition other : Townsville.settings :=
  {| Townsville.s_name := None;
     Townsville.s_level := VString "trace";
     Townsville.s_levels := Some [("noot", VString "debug")];
     Townsville.s_showName := VString "full";
     Townsville.s_showPid := VUndefined;
     Townsville.s_console := None;
     Townsville.s_file :=
       Some {| Townsville.ts_timestamp := VUndefined; Townsville.ts_colorize := VUndefined;
               Townsville.ts_path := VString "/tmp/t.log";
               Townsville.ts_tailable := VUndefined;
               Townsville.ts_rollingFile := None |};
     Townsville.s_syslog := None |}.

(** [{syslog: {protocol: "bogus"}}] *)
Definition bogus_syslog : Townsville.settings :=
  {| Townsville.s_name := None;
     Townsville.s_level := VUndefined;
     Townsville.s_levels := None;
     Townsville.s_showName := VUndefined;
     Townsville.s_showPid := VUndefined;
     Townsville.s_console := None;
     Townsville.s_file := None;
     Townsville.s_syslog :=
       Some {| Townsville.sy_host := VUndefined; Townsville.sy_port := VUndefined;
               Townsville.sy_protocol := VString "bogus";
               Townsville.sy_path := VUndefined; Townsville.sy_facility := VUndefined;
               Townsville.sy_type := VUndefined |} |}.

(** [{levels: {aap: "error", noot: 5}, console: {}}]: a level that is not
    a string. *)
Definition numeric_level : Townsville.settings :=
  {| Townsville.s_name := Some "mylog";
     Townsville.s_level := VUndefined;
     Townsville.s_levels := Some [("aap", VString "error"); ("noot", VNumber 5)];
     Townsville.s_showName := VUndefined;
     Townsville.s_showPid := VUndefined;
     Townsville.s_console := Some no_section;
     Townsville.s_file := None;
     Townsville.s_syslog := None |}.

(** [{file: {tailable: false, rollingFile: {tailable: true}}}], the file
    section only. *)
Definition rolling_file : Townsville.transport_settings :=
  {| Townsville.ts_timestamp := VUndefined; Townsville.ts_colorize := VUndefined;
     Townsville.ts_path := VUndefined; Townsville.ts_tailable := VBool false;
     Townsville.ts_rollingFile :=
       Some {| Townsville.rf_maxSize := VUndefined; Townsville.rf_maxFiles := VUndefined;
               Townsville.rf_tailable := VBool true |} |}.

Definition cs_accept_all (t : CsLogger.transport) : option exn := None.

Definition cs_reject_syslog (t : CsLogger.transport) : option exn :=
  match t with
  | CsLogger.MappedSyslog _ => Some (BackendError "Invalid syslog protocol: bogus")
  | _ => None
  end.

Definition cs_isNaN (v : value) : bool :=
  match v with VNumber _ => false | _ => true end.

(** [{protocol: "bogus"}] *)
Definition cs_bogus_section : CsLogger.syslog_settings :=
  {| CsLogger.sy_host := VUndefined; CsLogger.sy_port := VUndefined;
     CsLogger.sy_protocol := VString "bogus";
     CsLogger.sy_path := VUndefined; CsLogger.sy_facility := VUndefined;
     CsLogger.sy_type := VUndefined |}.

(** [{name: "mylog", syslog: {protocol: "bogus"}}] *)
Definition cs_bogus_syslog : CsLogger.settings :=
  {| CsLogger.s_name := Some "mylog";
     CsLogger.s_level := VUndefined;
     CsLogger.s_levels := None;
     CsLogger.s_showName := VUndefined;
     CsLogger.s_showPid := VUndefined;
     CsLogger.s_console := None;
     CsLogger.s_file := None;
     CsLogger.s_syslog := Some cs_bogus_section |}.

Definition cs_rolling_file : CsLogger.transport_settings :=
  {| CsLogger.ts_timestamp := VUndefined; CsLogger.ts_json := VUndefined;
     CsLogger.ts_colorize := VUndefined;
     CsLogger.ts_path := VUndefined; CsLogger.ts_tailable := VBool false;
     CsLogger.ts_rollingFile :=
       Some {| CsLogger.rf_maxSize := VUndefined; CsLogger.rf_maxFiles := VUndefined;
               CsLogger.rf_tailable := VBool true |} |}.

End Samples.

(** ** The syslog transport with mapped levels (mapped-syslog.js) *)
Module MappedSyslog.

(** The [switch] of [MappedSyslog.prototype.log]: the local [syslogLevel]
    as a function of the winston level. *)
Definition syslogLevel (level : string) : string :=
  if String.eqb level "fatal" then "crit"
  else if String.eqb level "error" then "error"
  else if String.eqb level "warn" then "warning"
  else if String.eqb level "info" then "info"
  else "debug".

(** [log(level, msg, meta, callback)]: the arguments with which the
    original [Syslog.prototype.log] is called. *)
Definition log {Msg Meta Callback : Type}
  (level : string) (msg : Msg) (meta : Meta) (callback : Callback)
  : string * Msg * Meta * Callback :=
  (syslogLevel level, msg, meta, callback).

End MappedSyslog.

(** ** The logger of the older entry point (constructor CsLogger) *)
Module CsLoggerClass.

Import CsLogger.

Record logger : Type := {
  _name : string;
  _level : prop_value;
  _pid : N
}.

(** [new CsLogger(name)]; [pid] is [process.pid]. *)
Definition CsLogger (pid : N) (name : string) (st : state) : logger :=
  {| _name := name;
     _level := if js_in name (logLevels st)
               then js_get name (logLevels st)
               else PNumber (logLevel st);
     _pid := pid |}.

(** The module variables together with the calls winston has received,
    oldest first. *)
Record world : Type := {
  vars : state;
  sent : list (string * list value)
}.

Definition createLogger (pid : N) (name : string) : js world logger :=
  gets (fun w => CsLogger pid name (vars w)).

Record arguments : Type := {
  arg0 : string;
  rest : list value
}.

Definition _isToLog (this : logger) (level : Z) : js world bool :=
  fun w =>
    match log (vars w) with
    | None => (Throw not_initialized, w)
    | Some _ => (Normal (js_ge (_level this) level), w)
    end.

(** Only [args['0']] is rewritten here; the other arguments stay. *)
Definition _addToArgs (this : logger) (args : arguments) : js world arguments :=
  fun w =>
    let st := vars w in
    let shows_pid := match showPid st with Some b => b | None => false end in
    if bool_decide (showName st = Some SN_NONE) && negb shows_pid
    then (Normal args, w)
    else
      let addOn := "" in
      let addOn :=
        if shows_pid then addOn +:+ ("#" +:+ format_d (_pid this)) else addOn in
      let addOn :=
        if match showName st with Some n => SN_NONE <? n | None => false end
        then
          let addOn := if shows_pid then addOn +:+ "-" else addOn in
          if bool_decide (showName st = Some SN_FULL)
          then addOn +:+ (format_s (appName st) +:+ "." +:+ _name this)
          else addOn +:+ _name this
        else addOn in
      (Normal {| arg0 := "[" +:+ addOn +:+ "] " +:+ arg0 args; rest := rest args |}, w).

Definition emit (method : string) (args : arguments) : js world unit :=
  fun w =>
    match log (vars w) with
    | None => (Throw TypeError, w)
    | Some _ =>
        (Normal tt,
         {| vars := vars w;
            sent := (sent w ++ [(method, VString (arg0 args) :: rest args)])%list |})
    end.

(** The common shape of the six severity methods. *)
Definition severity (level : Z) (method : string) (this : logger) (args : arguments)
  : js world unit :=
  let! accepted := _isToLog this level in
  if accepted
  then let! args' := _addToArgs this args in emit method args'
  else ret tt.

Definition fatal := severity NR_FATAL "fatal".
Definition isFatal (this : logger) := _isToLog this NR_FATAL.
Definition error := severity NR_ERROR "error".
Definition isError (this : logger) := _isToLog this NR_ERROR.
Definition warn := severity NR_WARN "warn".
Definition isWarn (this : logger) := _isToLog this NR_WARN.
Definition info := severity NR_INFO "info".
Definition isInfo (this : logger) := _isToLog this NR_INFO.
Definition debug := severity NR_DEBUG "debug".
Definition isDebug (this : logger) := _isToLog this NR_DEBUG.
Definition trace := severity NR_TRACE "trace".
Definition isTrace (this : logger) := _isToLog this NR_TRACE.

End CsLoggerClass.

(** ** The life of the current module: every call a client can make *)
Module Lifecycle.

Import Townsville.

(** The states the module can be in: as loaded, and after any of the
    public calls, [deinit] included. *)
Inductive reachable (rejects : transport -> option exn) : state -> Prop :=
| reach_loaded : reachable rejects loaded
| reach_call (c : call) (st : state) :
    reachable rejects st -> reachable rejects (run_call rejects c st)
| reach_deinit (st : state) :
    reachable rejects st -> reachable rejects (snd (deinit st)).

(** [end(callback)]: whether [log.end()] is called, and whether the
    interval timer is started ([callback_is_function] is
    [typeof callback === 'function']). *)
Record ending : Type := {
  log_ended : bool;
  timer_started : bool
}.

Definition end_ (callback_is_function : bool) (st : state) : ending :=
  {| log_ended := match log st with Some _ => true | None => false end;
     timer_started := callback_is_function |}.

(** What happens after [end]: a transport emits 'finish', or the 50 ms
    interval elapses. *)
Inductive event : Type :=
| Finish
| Tick.

(** The handler of the interval: when no transport is left it calls the
    callback and clears the timer. The result says whether it did. *)
Definition on_interval (st : state) : bool :=
  (nrTransports st <=? 0)%nat.

(** The module state, whether the timer is still set, and how often the
    callback has been called. *)
Record polling : Type := {
  module_state : state;
  timer_set : bool;
  callbacks : nat
}.

Definition step (p : polling) (ev : event) : polling :=
  match ev with
  | Finish =>
      {| module_state := snd (handleFinish (module_state p));
         timer_set := timer_set p; callbacks := callbacks p |}
  | Tick =>
      if timer_set p && on_interval (module_state p)
      then {| module_state := module_state p; timer_set := false;
              callbacks := S (callbacks p) |}
      else p
  end.

Definition run_events (evs : list event) (p : polling) : polling :=
  fold_left step evs p.

(** The situation right after [end(callback)]. *)
Definition after_end (callback_is_function : bool) (st : state) : polling :=
  {| module_state := st;
     timer_set := timer_started (end_ callback_is_function st);
     callbacks := 0 |}.

Definition finishes (evs : list event) : nat :=
  length (List.filter (fun ev => match ev with Finish => true | Tick => false end) evs).

(** The same module state with another transport counter. *)
Definition with_nrTransports (n : nat) (st : state) : state :=
  {| logLevel := logLevel st; logLevels := logLevels st;
     appName := appName st; showName := showName st; showPid := showPid st;
     log := log st; nrTransports := n |}.

(** The module state after the first three assignments of
    [evaluateSettings]. *)
Definition named (s : settings) (st : state) : state :=
  {| logLevel := logLevel st; logLevels := logLevels st;
     appName := Some (match s_name s with
                      | Some n => if String.eqb n "" then DEFAULT_LOGGER_NAME else n
                      | None => DEFAULT_LOGGER_NAME
                      end);
     showName := Some (getShowName (s_showName s));
     showPid := Some (truthy (s_showPid s));
     log := log st; nrTransports := nrTransports st |}.

(** The transports [evaluateSettings] builds, in the order it pushes them. *)
Definition requested (s : settings) (transLevel : string) : list transport :=
  (match s_console s with
   | Some c => [getConsoleTransport c transLevel]
   | None => []
   end
   ++ match s_file s with
      | Some f => [getFileTransport f transLevel]
      | None => []
      end)%list.

(** Every rank the module holds is one of the six declared ones. *)
Definition declared (r : Z) : Prop := In r (map snd CUSTOM_DEFS_levels).

Definition levels_declared (st : state) : Prop :=
  declared (logLevel st)
  /\ forall k v, logLevels st !! k = Some v -> declared v.

(** Every transport carries the transport level of the current tables. *)
Definition transports_at_level (st : state) : Prop :=
  forall w, log st = Some w ->
    Forall (fun t => level (opts_of t) = determineTransLevel st) (transports w).

(** With a pipeline installed, the three display variables are set, and
    showName is one of the three modes. *)
Definition settled (st : state) : Prop :=
  log st <> None ->
  exists a sn sp,
    appName st = Some a /\ showName st = Some sn /\ showPid st = Some sp
    /\ (sn = SN_NONE \/ sn = SN_SIMPLE \/ sn = SN_FULL).


(** What holds of the module whatever the client has called. *)
Definition invariant (st : state) : Prop :=
  levels_declared st
  /\ transports_at_level st
  /\ logLevels st !! "__proto__" = None
  /\ settled st.

End Lifecycle.

(** * Properties *)

(** ** Strings and the level codec *)
Section LevelCodec.

Import Townsville.

Lemma lower_ascii_idem (c : ascii) : lower_ascii (lower_ascii c) = lower_ascii c.
Proof. destruct c as [[] [] [] [] [] [] [] []]; reflexivity. Qed.

Lemma toLowerCase_idem (s : string) : toLowerCase (toLowerCase s) = toLowerCase s.
Proof.
  induction s as [|c s IH]; simpl; [reflexivity|].
  now rewrite lower_ascii_idem, IH.
Qed.

Lemma toLowerCase_length (s : string) :
  String.length (toLowerCase s) = String.length s.
Proof. induction s as [|c s IH]; simpl; congruence. Qed.

(** The two entry points carry the same codec. *)
Lemma numLevel_same (v : value) : CsLogger.numLevel v = numLevel v.
Proof. reflexivity. Qed.

Lemma strLevel_same (r : Z) : CsLogger.strLevel r = strLevel r.
Proof. reflexivity. Qed.

Lemma getShowName_same (v : value) : CsLogger.getShowName v = getShowName v.
Proof. reflexivity. Qed.

(** [numLevel] answers on a string with the table's rank for its
    lower-cased form. *)
Lemma numLevel_string (s : string) :
  numLevel (VString s) = Normal (Spec.rankOf (toLowerCase s)).
Proof.
  unfold numLevel, Spec.rankOf. simpl.
  repeat (destruct (String.eqb (toLowerCase s) _); [reflexivity|]).
  reflexivity.
Qed.

(** On anything that is not a string the call of [toLowerCase] throws. *)
Lemma numLevel_not_string (v : value) :
  String.eqb (typeof v) "string" = false -> numLevel v = Throw TypeError.
Proof. destruct v; simpl; intros H; try reflexivity; discriminate. Qed.

(** Every rank [numLevel] returns is a declared one. *)
Lemma numLevel_declared (v : value) (r : Z) :
  numLevel v = Normal r -> In r (map snd CUSTOM_DEFS_levels).
Proof.
  destruct v; simpl; try discriminate.
  intros H. injection H as <-.
  repeat (destruct (String.eqb (toLowerCase s) _); [simpl; tauto|]).
  simpl; tauto.
Qed.

(** C6 (as amended): the level-name-to-rank lookup is total on strings.
    For every string it returns, without raising, the rank that the table of
    declared levels gives to the lower-cased name; a string that is not a
    level name in any casing (the empty one included) gets the Trace rank
    50; and the answer does not depend on the casing of the name. *)
Theorem numLevel_total_on_strings (s : string) :
  numLevel (VString s) = Normal (Spec.rankOf (toLowerCase s))
  /\ (Spec.recognized s = false -> numLevel (VString s) = Normal 50)
  /\ numLevel (VString (toLowerCase s)) = numLevel (VString s).
Proof.
  split; [apply numLevel_string|]. split.
  - unfold Spec.recognized, numLevel. simpl. intros H.
    repeat (destruct (String.eqb (toLowerCase s) _); [discriminate H|]).
    reflexivity.
  - now rewrite !numLevel_string, toLowerCase_idem.
Qed.

Lemma numLevel_total_on_strings_witness :
  numLevel (VString "verbose") = Normal 50
  /\ numLevel (VString "WaRn") = Normal 20.
Proof.
  split.
  - apply (proj1 (proj2 (numLevel_total_on_strings "verbose"))). reflexivity.
  - rewrite (proj1 (numLevel_total_on_strings "WaRn")). reflexivity.
Defined.

(** C6, counterexample: a missing name does not yield the Trace rank; the
    lookup raises a TypeError. *)
Lemma numLevel_undefined_throws :
  numLevel VUndefined = Throw TypeError /\ numLevel VUndefined <> Normal 50.
Proof. split; [reflexivity|discriminate]. Qed.

(** C9: [numLevel (strLevel r) = r] for each of the six declared ranks, and
    [strLevel] answers "trace" on every other number. *)
Theorem strLevel_numLevel_roundtrip (r : Z) :
  (In r (map snd CUSTOM_DEFS_levels) -> numLevel (VString (strLevel r)) = Normal r)
  /\ (~ In r (map snd CUSTOM_DEFS_levels) -> strLevel r = "trace").
Proof.
  split.
  - simpl. intros H.
    repeat (destruct H as [<-|H]; [reflexivity|]). destruct H.
  - simpl. intros H. unfold strLevel.
    repeat match goal with
           | |- context [?a =? ?b] =>
               destruct (Z.eqb_spec a b); [exfalso; apply H; unfold NR_FATAL, NR_ERROR,
                 NR_WARN, NR_INFO, NR_DEBUG, NR_TRACE in *; lia|]
           end.
    reflexivity.
Qed.

Lemma strLevel_numLevel_roundtrip_witness :
  numLevel (VString (strLevel 30)) = Normal 30 /\ strLevel 35 = "trace".
Proof.
  split.
  - apply (proj1 (strLevel_numLevel_roundtrip 30)). vm_compute. lia.
  - apply (proj2 (strLevel_numLevel_roundtrip 35)). vm_compute. lia.
Defined.

(** C7 (as amended): [getShowName] returns Full for a string that
    lower-cases to "full"; None for one that lower-cases to "none" or
    "false"; Simple for every other string, the empty string included; and
    for a value that is not a string, Simple when it is truthy and None when
    it is falsy or absent. *)
Theorem getShowName_cases :
  (forall s, toLowerCase s = "full" -> getShowName (VString s) = SN_FULL)
  /\ (forall s, toLowerCase s = "none" \/ toLowerCase s = "false" ->
        getShowName (VString s) = SN_NONE)
  /\ (forall s, existsb (String.eqb (toLowerCase s)) ["full"; "none"; "false"] = false ->
        getShowName (VString s) = SN_SIMPLE)
  /\ (forall v, String.eqb (typeof v) "string" = false -> truthy v = true ->
        getShowName v = SN_SIMPLE)
  /\ (forall v, String.eqb (typeof v) "string" = false -> truthy v = false ->
        getShowName v = SN_NONE).
Proof.
  repeat split.
  - intros s H. unfold getShowName. now rewrite H.
  - intros s [H|H]; unfold getShowName; now rewrite H.
  - intros s H. unfold getShowName. simpl in H.
    destruct (String.eqb (toLowerCase s) "full"); [discriminate|].
    destruct (String.eqb (toLowerCase s) "none"); [discriminate|].
    destruct (String.eqb (toLowerCase s) "false"); [discriminate|].
    reflexivity.
  - intros v Hs Ht. destruct v; simpl in *; try discriminate; now rewrite ?Ht.
  - intros v Hs Ht. destruct v; simpl in *; try discriminate; now rewrite ?Ht.
Qed.

Lemma getShowName_cases_witness :
  getShowName (VString "FULL") = SN_FULL
  /\ getShowName (VString "False") = SN_NONE
  /\ getShowName (VString "") = SN_SIMPLE
  /\ getShowName (VBool true) = SN_SIMPLE
  /\ getShowName VUndefined = SN_NONE.
Proof.
  destruct getShowName_cases as (Hf & Hn & Hs & Ht & Hu).
  split; [apply Hf; reflexivity|].
  split; [apply Hn; right; reflexivity|].
  split; [apply Hs; reflexivity|].
  split; [apply Ht; reflexivity|].
  apply Hu; reflexivity.
Defined.

(** C7, counterexample: the empty string is falsy, yet it resolves to
    Simple, not to None. *)
Lemma getShowName_empty_string :
  truthy (VString "") = false
  /\ getShowName (VString "") = SN_SIMPLE
  /\ getShowName (VString "") <> SN_NONE.
Proof. split; [reflexivity|]. split; [reflexivity|discriminate]. Qed.

End LevelCodec.

(** ** Transports *)
Section Transports.

(** C10: for a file section with a [rollingFile] part, the file transport's
    [tailable] option is [true] when [rollingFile.tailable] is undefined, and
    otherwise it is the top-level [tailable] of the file section (undefined
    when absent), not the value given under [rollingFile]; in both entry
    points. *)
Theorem file_transport_tailable :
  (forall settings level rollingFile,
      Townsville.ts_rollingFile settings = Some rollingFile ->
      exists opts,
        Townsville.getFileTransport settings level = Townsville.File opts
        /\ (Townsville.rf_tailable rollingFile = VUndefined ->
            Townsville.tailable opts = VBool true)
        /\ (Townsville.rf_tailable rollingFile <> VUndefined ->
            Townsville.tailable opts = Townsville.ts_tailable settings))
  /\ (forall settings level rollingFile,
      CsLogger.ts_rollingFile settings = Some rollingFile ->
      exists opts,
        CsLogger.getFileTransport settings level = CsLogger.File opts
        /\ (CsLogger.rf_tailable rollingFile = VUndefined ->
            CsLogger.tailable opts = VBool true)
        /\ (CsLogger.rf_tailable rollingFile <> VUndefined ->
            CsLogger.tailable opts = CsLogger.ts_tailable settings)).
Proof.
  split; intros settings level rollingFile H.
  - unfold Townsville.getFileTransport. rewrite H.
    eexists; split; [reflexivity|]. simpl. split.
    + intros ->. reflexivity.
    + intros Hd. destruct (Townsville.rf_tailable rollingFile); simpl; congruence.
  - unfold CsLogger.getFileTransport. rewrite H.
    eexists; split; [reflexivity|]. simpl. split.
    + intros ->. reflexivity.
    + intros Hd. destruct (CsLogger.rf_tailable rollingFile); simpl; congruence.
Qed.

Lemma file_transport_tailable_witness :
  (exists opts,
      Townsville.getFileTransport Samples.rolling_file "info" = Townsville.File opts
      /\ Townsville.tailable opts = VBool false)
  /\ (exists opts,
      CsLogger.getFileTransport Samples.cs_rolling_file "info" = CsLogger.File opts
      /\ CsLogger.tailable opts = VBool false).
Proof.
  split.
  - destruct (proj1 file_transport_tailable Samples.rolling_file "info" _ eq_refl)
      as (opts & E & _ & H).
    exists opts. split; [exact E|]. apply H. discriminate.
  - destruct (proj2 file_transport_tailable Samples.cs_rolling_file "info" _ eq_refl)
      as (opts & E & _ & H).
    exists opts. split; [exact E|]. apply H. discriminate.
Defined.

(** Without a [rollingFile] part no rotation option is set at all. *)
Lemma file_transport_no_rolling settings level :
  Townsville.ts_rollingFile settings = None ->
  Townsville.tailable (Townsville.opts_of (Townsville.getFileTransport settings level))
  = VUndefined.
Proof. intros H. unfold Townsville.getFileTransport. now rewrite H. Qed.

(** Every transport getter stamps the level it is given. *)
Lemma getConsoleTransport_level settings level :
  Townsville.level (Townsville.opts_of (Townsville.getConsoleTransport settings level))
  = level.
Proof. reflexivity. Qed.

Lemma getFileTransport_level settings level :
  Townsville.level (Townsville.opts_of (Townsville.getFileTransport settings level))
  = level.
Proof.
  unfold Townsville.getFileTransport.
  destruct (Townsville.ts_rollingFile settings); reflexivity.
Qed.

End Transports.

(** ** The transport level *)
Section TransportLevel.

Import Townsville.

Lemma raise_to_fold (l : list (string * Z)) : forall d,
  let m := fold_left raise_to l d in
  d <= m
  /\ (forall kv, In kv l -> snd kv <= m)
  /\ (m = d \/ exists kv, In kv l /\ snd kv = m).
Proof.
  induction l as [|kv l IH]; intros d; simpl.
  - split; [lia|]. split; [tauto|]. now left.
  - destruct (IH (raise_to d kv)) as (Hle & Hall & Hin).
    assert (Hr : d <= raise_to d kv /\ snd kv <= raise_to d kv
                 /\ (raise_to d kv = d \/ raise_to d kv = snd kv)).
    { unfold raise_to. destruct (Z.ltb_spec d (snd kv)); lia. }
    destruct Hr as (Hd & Hk & Hc).
    split; [lia|]. split.
    + intros kv' [<-|Hin']; [lia|now apply Hall].
    + destruct Hin as [Hin|(kv' & Hin' & Heq)].
      * destruct Hc as [Hc|Hc].
        -- left. congruence.
        -- right. exists kv. split; [now left|congruence].
      * right. exists kv'. split; [now right|exact Heq].
Qed.

(** The loop of [determineTransLevel] ends on the largest rank among the
    default level and the values of [logLevels]. *)
Lemma determineTransLevel_least_severe (st : state) :
  exists m, determineTransLevel st = strLevel m
            /\ Spec.least_severe m (logLevel st) (logLevels st).
Proof.
  exists (fold_left raise_to (map_to_list (logLevels st)) (logLevel st)).
  split; [reflexivity|].
  destruct (raise_to_fold (map_to_list (logLevels st)) (logLevel st)) as (Hle & Hall & Hin).
  split; [|split].
  - destruct Hin as [Hin|([k v] & Hin & Heq)]; [now left|].
    right. exists k. apply elem_of_map_to_list. apply list_elem_of_In.
    simpl in Heq. now rewrite <- Heq.
  - exact Hle.
  - intros k v Hk. apply (Hall (k, v)).
    apply list_elem_of_In. now apply elem_of_map_to_list.
Qed.

Lemma least_severe_unique m m' d M :
  Spec.least_severe m d M -> Spec.least_severe m' d M -> m = m'.
Proof.
  intros (Hin & Hd & Hall) (Hin' & Hd' & Hall').
  assert (m <= m') by (destruct Hin as [->|(k & Hk)]; [lia|eauto]).
  assert (m' <= m) by (destruct Hin' as [->|(k & Hk)]; [lia|eauto]).
  lia.
Qed.

(** The order in which [for ... in] visits the keys does not matter. *)
Lemma raise_to_fold_perm (l l' : list (string * Z)) (d : Z) :
  Permutation l l' -> fold_left raise_to l d = fold_left raise_to l' d.
Proof.
  intros HP.
  destruct (raise_to_fold l d) as (Hle & Hall & Hin).
  destruct (raise_to_fold l' d) as (Hle' & Hall' & Hin').
  assert (fold_left raise_to l d <= fold_left raise_to l' d).
  { destruct Hin as [->|(kv & Hkv & <-)]; [lia|].
    apply Hall'. eapply Permutation_in; eauto. }
  assert (fold_left raise_to l' d <= fold_left raise_to l d).
  { destruct Hin' as [->|(kv & Hkv & <-)]; [lia|].
    apply Hall. eapply Permutation_in; [symmetry|]; eauto. }
  lia.
Qed.

(** The older loop, with [>=], computes the same level. *)
Lemma raise_to_same (d : Z) (kv : string * Z) :
  CsLogger.raise_to d kv = raise_to d kv.
Proof.
  unfold CsLogger.raise_to, raise_to.
  destruct (Z.leb_spec d (snd kv)), (Z.ltb_spec d (snd kv)); lia.
Qed.

End TransportLevel.

(** ** Initialisation *)
Section Init.
Import Townsville.
Variable rejects : transport -> option exn.

(** The only thing [numLevel] throws is the TypeError of calling
    [toLowerCase] on something that has none. *)
Lemma numLevel_throw (v : value) (e : exn) : numLevel v = Throw e -> e = TypeError.
Proof. destruct v; simpl; congruence. Qed.

(** [getLogLevels] touches [logLevels] only, and throws only what the
    conversion of one of the entries throws. *)
Lemma getLogLevels_frame (lv : list (string * value)) : forall st r st',
  getLogLevels lv st = (r, st') ->
  logLevel st' = logLevel st /\ appName st' = appName st
  /\ showName st' = showName st /\ showPid st' = showPid st
  /\ log st' = log st /\ nrTransports st' = nrTransports st
  /\ (forall e, r = Throw e -> exists k v, In (k, v) lv /\ numLevel v = Throw e).
Proof.
  induction lv as [|[entry v] lv IH]; intros st r st'; simpl.
  - unfold ret. intros [= <- <-]. repeat split; congruence.
  - unfold bind, lift, modify.
    destruct (numLevel v) as [n|e] eqn:En.
    + intros H. apply IH in H. simpl in H.
      destruct H as (H1 & H2 & H3 & H4 & H5 & H6 & H7).
      repeat (split; [assumption|]).
      intros e He. destruct (H7 e He) as (k & v' & Hin & Hv).
      exists k, v'. split; [now right|exact Hv].
    + intros [= <- <-]. repeat split; try reflexivity.
      intros e' [= <-]. exists entry, v. split; [now left|exact En].
Qed.

(** The two ways out of [evaluateSettings] when nothing is installed yet:
    a winston logger over freshly built transports, each stamped with the
    transport level; or a throw before the logger is assigned. *)
Lemma evaluateSettings_outcome (s : settings) (st : state) :
  log st = None ->
  match evaluateSettings rejects s st with
  | (Normal _, st') =>
      exists ts,
        log st' = Some {| transports := ts; levels := CUSTOM_DEFS_levels;
                          emitErrs := false; entries := [] |}
        /\ nrTransports st' = length ts
        /\ Forall (fun t => level (opts_of t) = determineTransLevel st') ts
  | (Throw e, st') =>
      log st' = None /\ nrTransports st' = nrTransports st
      /\ ((exists v, numLevel v = Throw e
                     /\ (v = s_level s
                         \/ exists k lv, s_levels s = Some lv /\ In (k, v) lv))
          \/ exists t, rejects t = Some e)
  end.
Proof.
  intros Hlog. unfold evaluateSettings. rewrite Hlog.
  unfold bind at 1. unfold modify at 1.
  unfold bind at 1.
  set (st0 := {| logLevel := logLevel st |}).
  assert (H0 : log st0 = None /\ nrTransports st0 = nrTransports st) by (split; [exact Hlog|reflexivity]).
  clearbody st0.
  destruct H0 as [Hl0 Hn0].
  (* per-module levels *)
  destruct (match s_levels s with Some lv => getLogLevels lv | None => ret tt end st0)
    as [[[]|e] st1] eqn:E1.
  2:{ destruct (s_levels s) as [lv|]; [|discriminate].
      apply getLogLevels_frame in E1 as (_ & _ & _ & _ & Hl & Hn & He).
      split; [congruence|]. split; [congruence|]. left.
      destruct (He e eq_refl) as (k & v & Hin & Hv).
      exists v. split; [exact Hv|]. right. eauto. }
  assert (H1 : log st1 = None /\ nrTransports st1 = nrTransports st).
  { destruct (s_levels s) as [lv|].
    - apply getLogLevels_frame in E1 as (_ & _ & _ & _ & Hl & Hn & _).
      split; congruence.
    - injection E1 as <-. now split. }
  clear E1 Hl0 Hn0 st0. destruct H1 as [Hl1 Hn1].
  (* default level *)
  unfold bind at 1.
  destruct ((if truthy (s_level s)
             then let! n := lift (numLevel (s_level s)) in modify (set_logLevel n)
             else ret tt) st1) as [[[]|e] st2] eqn:E2.
  2:{ destruct (truthy (s_level s)); [|discriminate].
      unfold bind, lift, modify in E2.
      destruct (numLevel (s_level s)) as [n|e'] eqn:En; [discriminate|].
      injection E2 as <- <-. split; [congruence|]. split; [congruence|].
      left. exists (s_level s). split; [exact En|now left]. }
  assert (H2 : log st2 = None /\ nrTransports st2 = nrTransports st).
  { destruct (truthy (s_level s)).
    - unfold bind, lift, modify in E2.
      destruct (numLevel (s_level s)) as [n|e'] eqn:En; [|discriminate].
      injection E2 as <-. now split.
    - injection E2 as <-. now split. }
  clear E2 Hl1 Hn1 st1. destruct H2 as [Hl2 Hn2].
  unfold bind at 1. unfold gets at 1.
  set (transLevel := determineTransLevel st2).
  assert (Hdet : forall ts n,
            determineTransLevel
              {| logLevel := logLevel st2; logLevels := logLevels st2;
                 appName := appName st2; showName := showName st2;
                 showPid := showPid st2; log := Some ts; nrTransports := n |}
            = transLevel) by reflexivity.
  unfold bind, construct, ret, throw, modify.
  destruct (s_console s) as [c|], (s_file s) as [f|];
    repeat match goal with
           | |- context [rejects ?t] =>
               let E := fresh "E" in
               destruct (rejects t) as [e|] eqn:E;
               [split; [exact Hl2|]; split; [exact Hn2|]; right; eauto|]
           end;
    (eexists; split; [reflexivity|]; split; [reflexivity|]; rewrite Hdet;
     repeat constructor;
     auto using getConsoleTransport_level, getFileTransport_level).
Qed.

(** The guard at the top of [evaluateSettings]. *)
Lemma init_noop_when_installed (s : option settings) (st : state) :
  log st <> None -> init rejects s st = (Normal tt, st).
Proof.
  intros H. unfold init, evaluateSettings.
  destruct (log st); [reflexivity|congruence].
Qed.

Lemma init_success_installs (s : option settings) (st st' : state) :
  init rejects s st = (Normal tt, st') -> log st' <> None.
Proof.
  destruct (log st) eqn:E.
  - rewrite init_noop_when_installed by congruence. intros [= <-]. congruence.
  - unfold init. intros Hi.
    pose proof (evaluateSettings_outcome
                  (match s with Some s0 => s0 | None => DEFAULT_SETTINGS end) st E) as H.
    rewrite Hi in H. destruct H as (ts & Hl & _). congruence.
Qed.

(** Logging adds an entry to the winston logger and nothing else. *)
Lemma severity_frame (level : Z) (method : string) (this : logger) (args : arguments)
  (st : state) :
  configuration (snd (severity level method this args st)) = configuration st
  /\ (log st <> None -> log (snd (severity level method this args st)) <> None).
Proof.
  unfold severity, bind, _isToLog, gets.
  destruct (log st) as [w|] eqn:E; [|now split].
  destruct (js_ge (_level this) level && negb (nrTransports st =? 0)%nat);
    [|simpl; now rewrite E].
  unfold _addToArgs.
  destruct (bool_decide (showName st = Some SN_NONE) && negb _).
  - unfold emit. rewrite E. simpl. unfold configuration. simpl. rewrite E.
    split; [reflexivity|discriminate].
  - destruct (stringify_objects (rest args)); [|simpl; now rewrite E].
    unfold emit. rewrite E. simpl. unfold configuration. simpl. rewrite E.
    split; [reflexivity|discriminate].
Qed.

Lemma run_call_frame (c : call) (st : state) :
  log st <> None ->
  configuration (run_call rejects c st) = configuration st
  /\ log (run_call rejects c st) <> None.
Proof.
  intros H. destruct c as [s|pid name|l this args|l this|]; simpl.
  - rewrite init_noop_when_installed by exact H. now split.
  - now split.
  - destruct l; simpl; unfold fatal, error, warn, info, debug, trace;
      (split; [apply severity_frame|now apply severity_frame]).
  - destruct l; simpl; unfold isFatal, isError, isWarn, isInfo, isDebug, isTrace,
      _isToLog; destruct (log st) eqn:E; simpl; (split; [reflexivity|congruence]).
  - now split.
Qed.

Lemma run_calls_frame (cs : list call) : forall st,
  log st <> None ->
  configuration (run_calls rejects cs st) = configuration st
  /\ log (run_calls rejects cs st) <> None.
Proof.
  induction cs as [|c cs IH]; intros st H; simpl; [now split|].
  destruct (run_call_frame c st H) as [Hc Hl].
  destruct (IH _ Hl) as [Hc' Hl']. split; [congruence|exact Hl'].
Qed.

(** C3: once [init] has installed a pipeline, whatever the client then
    calls short of [deinit] (logging, predicates, new loggers, further
    [init]s, transports finishing), the application name, the showName mode,
    the showPid flag, the default level, the per-module levels and the
    transports with their level stay those of the first [init], and a further
    [init], with any settings, returns normally and changes nothing. *)
Theorem init_only_once (s1 s2 : option settings) (st st1 : state) (cs : list call) :
  init rejects s1 st = (Normal tt, st1) ->
  configuration (run_calls rejects cs st1) = configuration st1
  /\ init rejects s2 (run_calls rejects cs st1) = (Normal tt, run_calls rejects cs st1).
Proof.
  intros Hi. apply init_success_installs in Hi.
  destruct (run_calls_frame cs st1 Hi) as [Hc Hl].
  split; [exact Hc|]. now apply init_noop_when_installed.
Qed.

(** C4: after an [init] that builds the pipeline, every transport carries
    as its level the name of the largest rank among the default level and
    the values of the per-module table. *)
Theorem transport_level_is_least_severe (s : option settings) (st st' : state) :
  log st = None ->
  init rejects s st = (Normal tt, st') ->
  exists w m,
    log st' = Some w
    /\ Spec.least_severe m (logLevel st') (logLevels st')
    /\ Forall (fun t => level (opts_of t) = strLevel m) (transports w).
Proof.
  intros Hlog Hi. unfold init in Hi.
  pose proof (evaluateSettings_outcome
                (match s with Some s0 => s0 | None => DEFAULT_SETTINGS end) st Hlog) as H.
  rewrite Hi in H. destruct H as (ts & Hl & _ & Hall).
  destruct (determineTransLevel_least_severe st') as (m & Hm & Hmax).
  eexists; exists m. split; [exact Hl|]. split; [exact Hmax|].
  simpl. now rewrite <- Hm.
Qed.

(** When [init] throws, nothing is installed. *)
Lemma init_failure_installs_nothing (s : option settings) (st st' : state) (e : exn) :
  log st = None ->
  init rejects s st = (Throw e, st') ->
  log st' = None /\ nrTransports st' = nrTransports st
  /\ ((exists s0 v, s = Some s0 /\ numLevel v = Throw e
                    /\ (v = s_level s0
                        \/ exists k lv, s_levels s0 = Some lv /\ In (k, v) lv))
      \/ exists t, rejects t = Some e).
Proof.
  intros Hlog Hi. unfold init in Hi.
  pose proof (evaluateSettings_outcome
                (match s with Some s0 => s0 | None => DEFAULT_SETTINGS end) st Hlog) as H.
  rewrite Hi in H. destruct H as (Hl & Hn & [(v & Hv & Hsrc)|Hr]).
  - split; [exact Hl|]. split; [exact Hn|]. left.
    destruct s as [s0|].
    + exists s0, v. now split.
    + exfalso. destruct Hsrc as [->|(k & lv & Hlv & _)]; discriminate.
  - split; [exact Hl|]. split; [exact Hn|]. now right.
Qed.

End Init.

Lemma init_only_once_witness :
  let st1 := snd (Townsville.init Samples.accept_all (Some Samples.aap_error)
                    Townsville.loaded) in
  let cs := [ Townsville.CSeverity Townsville.LInfo
                (Townsville.TownsvilleLogger 7 "noot" st1)
                {| Townsville.arg0 := "hello"; Townsville.rest := [] |};
              Townsville.CInit (Some Samples.other);
              Townsville.CHandleFinish ] in
  Townsville.configuration (Townsville.run_calls Samples.accept_all cs st1)
  = Townsville.configuration st1
  /\ Townsville.init Samples.accept_all (Some Samples.other)
       (Townsville.run_calls Samples.accept_all cs st1)
     = (Normal tt, Townsville.run_calls Samples.accept_all cs st1).
Proof.
  intros st1 cs.
  apply (init_only_once Samples.accept_all (Some Samples.aap_error)
           (Some Samples.other) Townsville.loaded st1 cs).
  vm_compute. reflexivity.
Defined.

Lemma transport_level_is_least_severe_witness :
  exists w m,
    Townsville.log (snd (Townsville.init Samples.accept_all (Some Samples.other)
                           Townsville.loaded)) = Some w
    /\ Spec.least_severe m
         (Townsville.logLevel (snd (Townsville.init Samples.accept_all
                                      (Some Samples.other) Townsville.loaded)))
         (Townsville.logLevels (snd (Townsville.init Samples.accept_all
                                       (Some Samples.other) Townsville.loaded)))
    /\ Forall (fun t => Townsville.level (Townsville.opts_of t) = Townsville.strLevel m)
         (Townsville.transports w).
Proof.
  apply (transport_level_is_least_severe Samples.accept_all (Some Samples.other)
           Townsville.loaded).
  - reflexivity.
  - vm_compute. reflexivity.
Defined.

(** ** Loggers *)
Section Loggers.

Import Townsville.

Lemma append_nil_l (s : string) : "" +:+ s = s.
Proof. reflexivity. Qed.

Lemma append_cons (c : ascii) (s1 s2 : string) :
  String c s1 +:+ s2 = String c (s1 +:+ s2).
Proof. reflexivity. Qed.

Lemma append_assoc (s1 s2 s3 : string) : (s1 +:+ s2) +:+ s3 = s1 +:+ s2 +:+ s3.
Proof.
  induction s1 as [|c s1 IH]; [reflexivity|].
  rewrite !append_cons. f_equal. exact IH.
Qed.

Lemma stringify_objects_throw (l : list value) (e : exn) :
  stringify_objects l = Throw e ->
  e = TypeError
  /\ exists v, In v l /\ typeof v = "object" /\ JSON_stringify v = Throw TypeError.
Proof.
  induction l as [|v l IH]; simpl; [discriminate|].
  destruct (String.eqb_spec (typeof v) "object") as [Ho|Ho].
  - destruct (JSON_stringify v) as [v'|e'] eqn:Ej.
    + destruct (stringify_objects l) as [l'|e'']; [discriminate|].
      intros [= ->]. destruct (IH eq_refl) as (-> & w & Hin & Hw).
      split; [reflexivity|]. exists w. split; [now right|exact Hw].
    + intros [= ->].
      assert (e = TypeError) as ->.
      { destruct v as [| | | | | |[]|]; simpl in Ej; congruence. }
      split; [reflexivity|]. exists v. split; [now left|now split].
  - destruct (stringify_objects l) as [l'|e'']; [discriminate|].
    intros [= ->]. destruct (IH eq_refl) as (-> & w & Hin & Hw).
    split; [reflexivity|]. exists w. split; [now right|exact Hw].
Qed.

Lemma stringify_objects_normal (l : list value) :
  (forall v, In v l -> JSON_stringify v <> Throw TypeError) ->
  exists l', stringify_objects l = Normal l'.
Proof.
  intros H. destruct (stringify_objects l) as [l'|e] eqn:E; [eauto|].
  apply stringify_objects_throw in E as (_ & v & Hin & _ & Hv).
  now apply H in Hin.
Qed.

(** What a severity method does once a pipeline is there. *)
Lemma severity_installed (level : Z) (method : string) (this : logger)
  (args : arguments) (st : state) (w : winston_logger) :
  log st = Some w ->
  (js_ge (_level this) level && negb (nrTransports st =? 0)%nat = false
   /\ severity level method this args st = (Normal tt, st))
  \/ (js_ge (_level this) level && negb (nrTransports st =? 0)%nat = true
      /\ exists r, _addToArgs this args st = (r, st)
         /\ match r with
            | Normal args' =>
                exists st',
                  severity level method this args st = (Normal tt, st')
                  /\ log st' =
                     Some {| transports := transports w; levels := levels w;
                             emitErrs := emitErrs w;
                             entries := (entries w
                                         ++ [(method, VString (arg0 args') :: rest args')])%list |}
            | Throw e =>
                severity level method this args st = (Throw e, st)
                /\ e = TypeError
                /\ exists v, In v (rest args) /\ typeof v = "object"
                             /\ JSON_stringify v = Throw TypeError
            end).
Proof.
  intros E. unfold severity, bind, _isToLog, gets. rewrite E.
  destruct (js_ge (_level this) level && negb (nrTransports st =? 0)%nat);
    [right|left; now split].
  split; [reflexivity|].
  unfold _addToArgs.
  destruct (bool_decide (showName st = Some SN_NONE) && negb _).
  - eexists; split; [reflexivity|]. unfold emit. rewrite E.
    eexists; split; reflexivity.
  - destruct (stringify_objects (rest args)) as [rest'|e] eqn:Es.
    + eexists; split; [reflexivity|]. unfold emit. rewrite E.
      eexists; split; reflexivity.
    + eexists; split; [reflexivity|]. split; [reflexivity|].
      now apply stringify_objects_throw in Es.
Qed.

Lemma call_severity_unfold (l : level_name) :
  call_severity l = severity (rank l) (method_of l).
Proof. destruct l; reflexivity. Qed.

Lemma call_predicate_unfold (l : level_name) (this : logger) :
  call_predicate l this = _isToLog this (rank l).
Proof. destruct l; reflexivity. Qed.

(** C1 (as amended): with no pipeline installed, each of the six severity
    methods and each of the six predicates throws the not-initialized error
    and changes nothing. With a pipeline installed, no predicate throws, and
    a severity method throws nothing but the TypeError that [JSON.stringify]
    raises on an object-valued extra argument it cannot serialise; in
    particular it returns normally when every extra argument can be
    serialised. *)
Theorem logger_errors (l : level_name) (this : logger) (args : arguments) (st : state) :
  (log st = None ->
   call_severity l this args st = (Throw not_initialized, st)
   /\ call_predicate l this st = (Throw not_initialized, st))
  /\ (log st <> None ->
      (exists b, call_predicate l this st = (Normal b, st))
      /\ (forall e st', call_severity l this args st = (Throw e, st') ->
            e = TypeError /\ st' = st
            /\ exists v, In v (rest args) /\ typeof v = "object"
                         /\ JSON_stringify v = Throw TypeError)
      /\ ((forall v, In v (rest args) -> JSON_stringify v <> Throw TypeError) ->
          exists st', call_severity l this args st = (Normal tt, st'))).
Proof.
  rewrite call_severity_unfold, call_predicate_unfold. split.
  - intros E. unfold severity, bind, _isToLog. rewrite E. now split.
  - intros E. destruct (log st) as [w|] eqn:Ew; [clear E|congruence].
    assert (Hthrow : forall e st',
               severity (rank l) (method_of l) this args st = (Throw e, st') ->
               e = TypeError /\ st' = st
               /\ exists v, In v (rest args) /\ typeof v = "object"
                            /\ JSON_stringify v = Throw TypeError).
    { intros e st' H.
      destruct (severity_installed (rank l) (method_of l) this args st w Ew)
        as [(_ & Hs)|(_ & r & _ & Hr)]; [congruence|].
      destruct r as [args'|e'].
      - destruct Hr as (st'' & Hs & _). congruence.
      - destruct Hr as (Hs & -> & Hv). rewrite Hs in H. injection H as <- <-.
        now split. }
    split; [|split].
    + unfold _isToLog. rewrite Ew. eauto.
    + exact Hthrow.
    + intros Hok.
      destruct (severity (rank l) (method_of l) this args st) as [[[]|e] st'] eqn:Es;
        [eauto|].
      destruct (Hthrow e st' eq_refl) as (_ & _ & v & Hin & _ & Hv).
      now apply Hok in Hin.
Qed.

Lemma _addToArgs_first_argument (this : logger) (args args' : arguments) (st st' : state)
  (sn : Z) (sp : bool) (app : string) :
  showName st = Some sn ->
  sn = SN_NONE \/ sn = SN_SIMPLE \/ sn = SN_FULL ->
  showPid st = Some sp ->
  appName st = Some app ->
  _addToArgs this args st = (Normal args', st') ->
  arg0 args' = Spec.first_argument sn sp app (_name this) (_pid this) (arg0 args)
  /\ (sn = SN_NONE -> sp = false -> args' = args).
Proof.
  intros Hsn Hc Hsp Happ. unfold _addToArgs. rewrite Hsn, Hsp, Happ.
  destruct Hc as [-> | [-> | ->]], sp; simpl;
    try (intros [= <- <-]; split; [reflexivity|intros; reflexivity || discriminate]);
    (destruct (stringify_objects (rest args)) as [rest'|e]; [|discriminate];
     intros [= <- <-]; split; [|intros; discriminate]);
    unfold Spec.first_argument, Spec.addon, Spec.name_part, format_d; simpl;
    repeat (rewrite append_assoc || rewrite append_cons || rewrite append_nil_l);
    reflexivity.
Qed.

(** C5: in an accepted call (the level is let through and a transport is
    left), with first argument [f], winston receives [f] unchanged when
    showName is None and showPid is off, and otherwise "[" + addon + "] " + f,
    the addon being "#pid" for the pid alone, the module name (Simple) or
    application name, ".", module name (Full) for the name alone, and the
    two joined by "-" when both are shown. *)
Theorem accepted_call_first_argument (l : level_name) (this : logger) (args : arguments)
  (st st' : state) (w : winston_logger) (sn : Z) (sp : bool) (app : string) :
  log st = Some w ->
  showName st = Some sn ->
  sn = SN_NONE \/ sn = SN_SIMPLE \/ sn = SN_FULL ->
  showPid st = Some sp ->
  appName st = Some app ->
  call_predicate l this st = (Normal true, st) ->
  nrTransports st <> 0%nat ->
  call_severity l this args st = (Normal tt, st') ->
  exists w' rest',
    log st' = Some w'
    /\ transports w' = transports w
    /\ entries w'
       = (entries w
          ++ [(method_of l,
               VString (Spec.first_argument sn sp app (_name this) (_pid this) (arg0 args))
               :: rest')])%list
    /\ (sn = SN_NONE -> sp = false -> rest' = rest args).
Proof.
  intros Ew Hsn Hc Hsp Happ Hp Hn.
  rewrite call_severity_unfold. rewrite call_predicate_unfold in Hp.
  unfold _isToLog in Hp. rewrite Ew in Hp. injection Hp as Hp.
  intros Hs.
  destruct (severity_installed (rank l) (method_of l) this args st w Ew)
    as [(Hacc & _)|(_ & r & Hr & Hcase)].
  { rewrite Hp in Hacc. simpl in Hacc.
    apply negb_false_iff, Nat.eqb_eq in Hacc. contradiction. }
  destruct r as [args'|e].
  - destruct Hcase as (st'' & Hs' & Hl). rewrite Hs' in Hs. injection Hs as ->.
    destruct (_addToArgs_first_argument this args args' st st sn sp app
                Hsn Hc Hsp Happ Hr) as [H0 Hsame].
    eexists; exists (rest args'). split; [exact Hl|]. simpl.
    split; [reflexivity|]. split; [now rewrite H0|].
    intros H1 H2. now rewrite (Hsame H1 H2).
  - destruct Hcase as (Hs' & _). congruence.
Qed.

(** The prefix for each of the six combinations, spelled out. *)
Lemma first_argument_table (app n f : string) (p : N) :
  Spec.first_argument SN_NONE false app n p f = f
  /\ Spec.first_argument SN_NONE true app n p f = "[#" +:+ pretty p +:+ "] " +:+ f
  /\ Spec.first_argument SN_SIMPLE false app n p f = "[" +:+ n +:+ "] " +:+ f
  /\ Spec.first_argument SN_FULL false app n p f
     = "[" +:+ (app +:+ "." +:+ n) +:+ "] " +:+ f
  /\ Spec.first_argument SN_SIMPLE true app n p f
     = "[" +:+ ("#" +:+ pretty p +:+ "-" +:+ n) +:+ "] " +:+ f
  /\ Spec.first_argument SN_FULL true app n p f
     = "[" +:+ ("#" +:+ pretty p +:+ "-" +:+ app +:+ "." +:+ n) +:+ "] " +:+ f.
Proof. repeat split; reflexivity. Qed.

(** A logger for a name that [Object.prototype] does not define is bound to
    the per-module level when there is one and to the default level
    otherwise, and lets a rank through exactly when it does not exceed that
    level. *)
Lemma effective_level (pid : N) (name : string) (st : state) (w : winston_logger)
  (l : level_name) :
  inherited name = false ->
  log st = Some w ->
  _level (TownsvilleLogger pid name st)
  = PNumber (default (logLevel st) (logLevels st !! name))
  /\ call_predicate l (TownsvilleLogger pid name st) st
     = (Normal (rank l <=? default (logLevel st) (logLevels st !! name)), st).
Proof.
  intros Hi Ew.
  assert (H : _level (TownsvilleLogger pid name st)
              = PNumber (default (logLevel st) (logLevels st !! name))).
  { unfold TownsvilleLogger, js_in, js_get. simpl. rewrite Hi.
    destruct (logLevels st !! name) as [n|] eqn:E; reflexivity. }
  split; [exact H|].
  rewrite call_predicate_unfold. unfold _isToLog. now rewrite Ew, H.
Qed.

(** C2, at the failing input: with global level "info" and overrides
    [{aap: "error"}], the logger for module "constructor" is not bound to
    the default level: the table has no entry of that name, yet the logger
    takes the inherited member as its level and all six predicates answer
    false. *)
Theorem inherited_name_rejects_everything :
  let st := snd (init Samples.accept_all (Some Samples.aap_error) loaded) in
  let this := TownsvilleLogger 7 "constructor" st in
  logLevel st = NR_INFO
  /\ logLevels st = {[ "aap" := NR_ERROR ]}
  /\ _level this = PInherited
  /\ forall l, call_predicate l this st = (Normal false, st).
Proof.
  intros st this.
  split; [reflexivity|]. split; [reflexivity|]. split; [reflexivity|].
  intros l. destruct l; reflexivity.
Qed.

(** The two loggers of the example behave as described. *)
Lemma example_levels :
  let st := snd (init Samples.accept_all (Some Samples.aap_error) loaded) in
  map (fun l => fst (call_predicate l (TownsvilleLogger 7 "aap" st) st))
      [LFatal; LError; LWarn; LInfo; LDebug; LTrace]
  = [Normal true; Normal true; Normal false; Normal false; Normal false; Normal false]
  /\ map (fun l => fst (call_predicate l (TownsvilleLogger 7 "noot" st) st))
       [LFatal; LError; LWarn; LInfo; LDebug; LTrace]
     = [Normal true; Normal true; Normal true; Normal true; Normal false; Normal false].
Proof. split; reflexivity. Qed.

(** C1, counterexample: after [init()] with the default settings, [info]
    with a circular object as extra argument throws a TypeError, which is
    not the not-initialized error. *)
Lemma severity_method_throws_TypeError :
  let st := snd (init Samples.accept_all None loaded) in
  log st <> None
  /\ fst (info (TownsvilleLogger 7 "mymodule" st)
            {| arg0 := "state: %s"; rest := [VObject JsonThrows] |} st)
     = Throw TypeError
  /\ TypeError <> not_initialized.
Proof. intros st. split; [discriminate|]. split; [reflexivity|discriminate]. Qed.

Lemma logger_errors_witness :
  let this := TownsvilleLogger 7 "mymodule" loaded in
  let args := {| arg0 := "%s and %d"; rest := [VObject (JsonText "{}"); VNumber 3] |} in
  let st := snd (init Samples.accept_all None loaded) in
  (call_severity LInfo this args loaded = (Throw not_initialized, loaded)
   /\ call_predicate LInfo this loaded = (Throw not_initialized, loaded))
  /\ (exists st', call_severity LInfo this args st = (Normal tt, st')).
Proof.
  intros this args st. split.
  - apply (proj1 (logger_errors LInfo this args loaded)). reflexivity.
  - apply (proj2 (logger_errors LInfo this args st)).
    + vm_compute. discriminate.
    + simpl. intros v [<-|[<-|[]]]; discriminate.
Defined.

Lemma accepted_call_first_argument_witness :
  let st := snd (init Samples.accept_all (Some Samples.aap_error) loaded) in
  let this := TownsvilleLogger 7 "noot" st in
  let args := {| arg0 := "info"; rest := [] |} in
  exists w' rest',
    log (snd (call_severity LInfo this args st)) = Some w'
    /\ transports w' = [getConsoleTransport Samples.no_section "info"]
    /\ entries w' = [("info", VString "[#7-noot] info" :: rest')]
    /\ (SN_SIMPLE = SN_NONE -> true = false -> rest' = []).
Proof.
  intros st this args.
  destruct (accepted_call_first_argument LInfo this args st
              (snd (call_severity LInfo this args st))
              {| transports := [getConsoleTransport Samples.no_section "info"];
                 levels := CUSTOM_DEFS_levels; emitErrs := false; entries := [] |}
              SN_SIMPLE true "mylog")
    as (w' & rest' & H); try reflexivity.
  - right; left; reflexivity.
  - vm_compute. lia.
  - exists w', rest'. exact H.
Defined.

End Loggers.

(** ** Initialisation of the older entry point *)
Section CsInit.

Import CsLogger.

Variable isNaN : value -> bool.
Variable hostname : string.
Variable rejects : transport -> option exn.

Lemma cs_getLogLevels_frame (lv : list (string * value)) : forall st r st',
  getLogLevels lv st = (r, st') ->
  log st' = log st
  /\ (forall e, r = Throw e -> exists k v, In (k, v) lv /\ numLevel v = Throw e).
Proof.
  induction lv as [|[entry v] lv IH]; intros st r st'; simpl.
  - unfold ret. intros [= <- <-]. split; congruence.
  - unfold bind, lift, modify.
    destruct (numLevel v) as [n|e] eqn:En.
    + intros H. apply IH in H. simpl in H. destruct H as (H1 & H2).
      split; [assumption|].
      intros e He. destruct (H2 e He) as (k & v' & Hin & Hv).
      exists k, v'. split; [now right|exact Hv].
    + intros [= <- <-]. split; [reflexivity|].
      intros e' [= <-]. exists entry, v. split; [now left|exact En].
Qed.

(** The syslog options are the section's fields handed on as they are;
    nothing is checked. *)
Lemma getSyslogTransport_passes_on (y : syslog_settings) (level : string) (st : state) :
  exists o,
    getSyslogTransport isNaN hostname y level st = (Normal (MappedSyslog o), st)
    /\ protocol o = sy_protocol y
    /\ host o = sy_host y
    /\ path o = sy_path y
    /\ facility o = sy_facility y
    /\ sl_level o = level
    /\ app_name o = appName st.
Proof.
  unfold getSyslogTransport, bind, gets, ret.
  eexists; split; [reflexivity|]. now repeat split.
Qed.

Lemma cs_evaluateSettings_outcome (s : settings) (st : state) :
  log st = None ->
  match evaluateSettings isNaN hostname rejects s st with
  | (Normal _, st') =>
      exists w, log st' = Some w
                /\ forall y, s_syslog s = Some y ->
                     exists o, In (MappedSyslog o) (transports w)
                               /\ protocol o = sy_protocol y
  | (Throw e, st') =>
      log st' = None
      /\ ((exists v, numLevel v = Throw e
                     /\ (v = s_level s
                         \/ exists k lv, s_levels s = Some lv /\ In (k, v) lv))
          \/ exists t, rejects t = Some e)
  end.
Proof.
  intros Hlog. unfold evaluateSettings. rewrite Hlog.
  unfold bind at 1. unfold modify at 1.
  unfold bind at 1.
  set (st0 := {| logLevel := logLevel st |}).
  assert (Hl0 : log st0 = None) by exact Hlog.
  clearbody st0.
  destruct (match s_levels s with Some lv => getLogLevels lv | None => ret tt end st0)
    as [[[]|e] st1] eqn:E1.
  2:{ destruct (s_levels s) as [lv|]; [|discriminate].
      apply cs_getLogLevels_frame in E1 as (Hl & He).
      split; [congruence|]. left.
      destruct (He e eq_refl) as (k & v & Hin & Hv).
      exists v. split; [exact Hv|]. right. eauto. }
  assert (Hl1 : log st1 = None).
  { destruct (s_levels s) as [lv|].
    - apply cs_getLogLevels_frame in E1 as (Hl & _). congruence.
    - injection E1 as <-. exact Hl0. }
  clear E1 Hl0 st0.
  unfold bind at 1.
  destruct ((if truthy (s_level s)
             then let! n := lift (numLevel (s_level s)) in modify (set_logLevel n)
             else ret tt) st1) as [[[]|e] st2] eqn:E2.
  2:{ destruct (truthy (s_level s)); [|discriminate].
      unfold bind, lift, modify in E2.
      destruct (numLevel (s_level s)) as [n|e'] eqn:En; [discriminate|].
      injection E2 as <- <-. split; [congruence|].
      left. exists (s_level s). split; [exact En|now left]. }
  assert (Hl2 : log st2 = None).
  { destruct (truthy (s_level s)).
    - unfold bind, lift, modify in E2.
      destruct (numLevel (s_level s)) as [n|e'] eqn:En; [|discriminate].
      injection E2 as <-. exact Hl1.
    - injection E2 as <-. exact Hl1. }
  clear E2 Hl1 st1.
  unfold bind at 1. unfold gets at 1.
  set (transLevel := determineTransLevel st2).
  unfold getSyslogTransport, bind, gets, construct, ret, throw, modify.
  destruct (s_console s) as [c|], (s_file s) as [f|], (s_syslog s) as [y|];
    repeat match goal with
           | |- context [rejects ?t] =>
               let E := fresh "E" in
               destruct (rejects t) as [e|] eqn:E;
               [split; [exact Hl2|]; right; eauto|]
           end;
    (eexists; split; [reflexivity|]; intros y' Hy;
     first [ discriminate Hy
           | injection Hy as <-; eexists; split;
             [simpl; repeat (first [left; reflexivity | right])|reflexivity] ]).
Qed.

End CsInit.

(** C8 (as amended): [init] validates no destination section and has no
    configuration error of its own. From the uninitialized state it fails
    only when a level value is not a string, with the TypeError of
    [numLevel], or when a transport constructor of the backend throws, with
    that error; and whenever it fails no winston logger is installed and the
    registry stays uninitialized. This holds for both entry points; the
    older one hands the syslog section, protocol included, to the backend
    unchecked, and the current one does not read it. *)
Theorem init_failure_leaves_uninitialized :
  (forall rejects s st e st',
      Townsville.log st = None ->
      Townsville.init rejects s st = (Throw e, st') ->
      Townsville.log st' = None
      /\ Townsville.nrTransports st' = Townsville.nrTransports st
      /\ ((exists s0 v, s = Some s0 /\ Townsville.numLevel v = Throw e
                        /\ (v = Townsville.s_level s0
                            \/ exists k lv, Townsville.s_levels s0 = Some lv
                                            /\ In (k, v) lv))
          \/ exists t, rejects t = Some e))
  /\ (forall rejects s y st,
      Townsville.init rejects (Some (Townsville.with_syslog y s)) st
      = Townsville.init rejects (Some s) st)
  /\ (forall isNaN hostname rejects s st e st',
      CsLogger.log st = None ->
      CsLogger.init isNaN hostname rejects (Some s) st = (Throw e, st') ->
      CsLogger.log st' = None
      /\ ((exists v, CsLogger.numLevel v = Throw e
                     /\ (v = CsLogger.s_level s
                         \/ exists k lv, CsLogger.s_levels s = Some lv /\ In (k, v) lv))
          \/ exists t, rejects t = Some e))
  /\ (forall isNaN hostname rejects s st st' y,
      CsLogger.log st = None ->
      CsLogger.init isNaN hostname rejects (Some s) st = (Normal tt, st') ->
      CsLogger.s_syslog s = Some y ->
      exists w o, CsLogger.log st' = Some w
                  /\ In (CsLogger.MappedSyslog o) (CsLogger.transports w)
                  /\ CsLogger.protocol o = CsLogger.sy_protocol y).
Proof.
  split; [|split; [|split]].
  - intros rejects s st e st'. apply init_failure_installs_nothing.
  - reflexivity.
  - intros isNaN hostname rejects s st e st' Hlog Hi. unfold CsLogger.init in Hi.
    pose proof (cs_evaluateSettings_outcome isNaN hostname rejects s st Hlog) as H.
    now rewrite Hi in H.
  - intros isNaN hostname rejects s st st' y Hlog Hi Hy. unfold CsLogger.init in Hi.
    pose proof (cs_evaluateSettings_outcome isNaN hostname rejects s st Hlog) as H.
    rewrite Hi in H. destruct H as (w & Hw & Hs).
    destruct (Hs y Hy) as (o & Hin & Hp). eauto.
Qed.

Lemma init_failure_leaves_uninitialized_witness :
  (Townsville.log (snd (Townsville.init Samples.accept_all (Some Samples.numeric_level)
                          Townsville.loaded)) = None)
  /\ (CsLogger.log (snd (CsLogger.init Samples.cs_isNaN "host" Samples.cs_reject_syslog
                           (Some Samples.cs_bogus_syslog) CsLogger.loaded)) = None)
  /\ (exists w o,
        CsLogger.log (snd (CsLogger.init Samples.cs_isNaN "host" Samples.cs_accept_all
                             (Some Samples.cs_bogus_syslog) CsLogger.loaded)) = Some w
        /\ In (CsLogger.MappedSyslog o) (CsLogger.transports w)
        /\ CsLogger.protocol o = VString "bogus").
Proof.
  destruct init_failure_leaves_uninitialized as (H1 & _ & H2 & H3).
  split; [|split].
  - eapply (H1 Samples.accept_all (Some Samples.numeric_level) Townsville.loaded
              TypeError); [reflexivity|]. vm_compute. reflexivity.
  - eapply (H2 Samples.cs_isNaN "host" Samples.cs_reject_syslog Samples.cs_bogus_syslog
              CsLogger.loaded (BackendError "Invalid syslog protocol: bogus"));
      [reflexivity|]. vm_compute. reflexivity.
  - apply (H3 Samples.cs_isNaN "host" Samples.cs_accept_all Samples.cs_bogus_syslog
             CsLogger.loaded
             (snd (CsLogger.init Samples.cs_isNaN "host" Samples.cs_accept_all
                     (Some Samples.cs_bogus_syslog) CsLogger.loaded))
             Samples.cs_bogus_section); [reflexivity| |reflexivity].
    vm_compute. reflexivity.
Defined.

(** C8, counterexample: a settings object whose syslog section names an
    unsupported protocol makes [init] return normally and install a
    pipeline (with no transport): no error, and the registry is initialized. *)
Lemma init_accepts_bogus_protocol :
  fst (Townsville.init Samples.accept_all (Some Samples.bogus_syslog) Townsville.loaded)
  = Normal tt
  /\ Townsville.log (snd (Townsville.init Samples.accept_all (Some Samples.bogus_syslog)
                            Townsville.loaded))
     = Some {| Townsville.transports := [];
               Townsville.levels := Townsville.CUSTOM_DEFS_levels;
               Townsville.emitErrs := false;
               Townsville.entries := [] |}.
Proof. split; reflexivity. Qed.

(** A failed [init] nevertheless leaves behind the variables it had
    already assigned. *)
Lemma failed_init_leaves_settings :
  let st := snd (Townsville.init Samples.accept_all (Some Samples.numeric_level)
                   Townsville.loaded) in
  fst (Townsville.init Samples.accept_all (Some Samples.numeric_level) Townsville.loaded)
  = Throw TypeError
  /\ Townsville.log st = None
  /\ Townsville.appName st = Some "mylog"
  /\ Townsville.logLevels st = {[ "aap" := Townsville.NR_ERROR ]}.
Proof. intros st. repeat split; reflexivity. Qed.

(** ** The per-module table *)
Section PerModuleLevels.

Import Townsville.

Lemma js_set_lookup_ne (k k' : string) (n : Z) (m : gmap string Z) :
  k <> k' -> js_set k n m !! k' = m !! k'.
Proof.
  intros H. unfold js_set. destruct (String.eqb k "__proto__"); [reflexivity|].
  now apply lookup_insert_ne.
Qed.

Lemma js_set_lookup_eq (k : string) (n : Z) (m : gmap string Z) :
  k <> "__proto__" -> js_set k n m !! k = Some n.
Proof.
  intros H. unfold js_set. destruct (String.eqb_spec k "__proto__"); [contradiction|].
  apply lookup_insert_eq.
Qed.

Lemma js_set_proto (k : string) (n : Z) (m : gmap string Z) :
  js_set k n m !! "__proto__" = m !! "__proto__".
Proof.
  unfold js_set. destruct (String.eqb_spec k "__proto__"); [reflexivity|].
  now apply lookup_insert_ne.
Qed.

Lemma js_set_keeps (k k' : string) (n : Z) (m : gmap string Z) :
  is_Some (m !! k') -> is_Some (js_set k n m !! k').
Proof.
  intros H. unfold js_set. destruct (String.eqb k "__proto__"); [exact H|].
  destruct (decide (k = k')) as [->|Hne].
  - rewrite lookup_insert_eq. eauto.
  - now rewrite lookup_insert_ne.
Qed.

Lemma numLevel_of_string (v : value) :
  String.eqb (typeof v) "string" = true -> exists n, numLevel v = Normal n.
Proof. destruct v; simpl; try discriminate. eauto. Qed.

(** X1: when the keys of [settings.levels] are distinct and all its values
    are strings, [getLogLevels] returns normally; afterwards every key other
    than "__proto__" maps to the rank of its value, and every other key of
    the table, "__proto__" included, maps to what it did before. *)
Theorem getLogLevels_stores (lv : list (string * value)) : forall st,
  NoDup (map fst lv) ->
  (forall k v, In (k, v) lv -> String.eqb (typeof v) "string" = true) ->
  exists st',
    getLogLevels lv st = (Normal tt, st')
    /\ (forall k v n, In (k, v) lv -> k <> "__proto__" -> numLevel v = Normal n ->
          logLevels st' !! k = Some n)
    /\ (forall k, ~ In k (map fst lv) \/ k = "__proto__" ->
          logLevels st' !! k = logLevels st !! k).
Proof.
  induction lv as [|[k0 v0] lv IH]; intros st Hnd Hstr; simpl.
  - exists st. split; [reflexivity|]. split; [intros ? ? ? []|reflexivity].
  - inversion Hnd as [|? ? Hnotin Hnd']; subst.
    rewrite list_elem_of_In in Hnotin.
    destruct (numLevel_of_string v0 (Hstr k0 v0 (or_introl eq_refl))) as [n0 Hn0].
    unfold bind, lift, modify. rewrite Hn0.
    destruct (IH (set_logLevels (js_set k0 n0) st) Hnd'
                (fun k v H => Hstr k v (or_intror H)))
      as (st' & Hrun & Hin & Hout).
    exists st'. split; [exact Hrun|]. split.
    + intros k v n [[= <- <-]|Hk] Hp Hn.
      * rewrite Hout by (left; exact Hnotin). simpl.
        rewrite js_set_lookup_eq by exact Hp. congruence.
      * eapply Hin; eauto.
    + intros k Hk. rewrite Hout.
      * simpl. destruct Hk as [Hk| ->]; [|apply js_set_proto].
        apply js_set_lookup_ne. intros ->. apply Hk. now left.
      * destruct Hk as [Hk|Hk]; [left|now right].
        intros H. apply Hk. now right.
Qed.

Lemma getLogLevels_stores_witness :
  exists st',
    getLogLevels [("aap", VString "Error"); ("__proto__", VString "fatal")] loaded
    = (Normal tt, st')
    /\ logLevels st' !! "aap" = Some 10
    /\ logLevels st' !! "__proto__" = None.
Proof.
  destruct (getLogLevels_stores
              [("aap", VString "Error"); ("__proto__", VString "fatal")] loaded)
    as (st' & Hrun & Hin & Hout).
  - apply (bool_decide_unpack _). vm_compute. exact I.
  - simpl. intros k v [[= <- <-]|[[= <- <-]|[]]]; reflexivity.
  - exists st'. split; [exact Hrun|]. split.
    + apply (Hin "aap" (VString "Error")); [now left|discriminate|reflexivity].
    + rewrite Hout by (now right). reflexivity.
Defined.

(** X2: [getLogLevels] is not atomic. When the first value that is not a
    string comes after some entries with string values, the call throws a
    TypeError and leaves the module exactly as storing those earlier entries
    left it; nothing after the offending entry is looked at. *)
Theorem getLogLevels_stops_at_first_bad (pre post : list (string * value))
  (k : string) (v : value) : forall st,
  (forall k' v', In (k', v') pre -> String.eqb (typeof v') "string" = true) ->
  String.eqb (typeof v) "string" = false ->
  exists st1,
    getLogLevels pre st = (Normal tt, st1)
    /\ getLogLevels (pre ++ (k, v) :: post) st = (Throw TypeError, st1).
Proof.
  induction pre as [|[k0 v0] pre IH]; intros st Hstr Hbad; simpl.
  - exists st. split; [reflexivity|].
    unfold bind, lift. now rewrite (numLevel_not_string v Hbad).
  - destruct (numLevel_of_string v0 (Hstr k0 v0 (or_introl eq_refl))) as [n0 Hn0].
    unfold bind, lift, modify. rewrite Hn0.
    apply IH; [|exact Hbad]. intros k' v' H. apply (Hstr k' v'). now right.
Qed.

Lemma getLogLevels_stops_at_first_bad_witness :
  exists st1,
    getLogLevels [("aap", VString "error")] loaded = (Normal tt, st1)
    /\ getLogLevels ([("aap", VString "error")] ++ ("noot", VNull) :: [("mies", VString "debug")])
         loaded = (Throw TypeError, st1).
Proof.
  apply getLogLevels_stops_at_first_bad.
  - simpl. intros k' v' [[= <- <-]|[]]. reflexivity.
  - reflexivity.
Defined.

(** Whatever happens, [getLogLevels] removes nothing from the table and
    leaves "__proto__" alone. *)
Lemma getLogLevels_grows (lv : list (string * value)) : forall st r st',
  getLogLevels lv st = (r, st') ->
  (forall k, is_Some (logLevels st !! k) -> is_Some (logLevels st' !! k))
  /\ logLevels st' !! "__proto__" = logLevels st !! "__proto__"
  /\ (forall k n, logLevels st' !! k = Some n ->
        logLevels st !! k = Some n \/ In n (map snd CUSTOM_DEFS_levels)).
Proof.
  induction lv as [|[k0 v0] lv IH]; intros st r st'; simpl.
  - unfold ret. intros [= <- <-]. split; [auto|]. split; [reflexivity|auto].
  - unfold bind, lift, modify.
    destruct (numLevel v0) as [n0|e] eqn:En.
    + intros H. apply IH in H. simpl in H. destruct H as (Hk & Hp & Hd).
      split; [|split].
      * intros k Hs. apply Hk. now apply js_set_keeps.
      * rewrite Hp. apply js_set_proto.
      * intros k n Hn. destruct (Hd k n Hn) as [Hs|Hs]; [|now right].
        unfold js_set in Hs. destruct (String.eqb k0 "__proto__"); [now left|].
        destruct (decide (k0 = k)) as [->|Hne].
        -- rewrite lookup_insert_eq in Hs. injection Hs as <-.
           right. eapply numLevel_declared; eauto.
        -- rewrite lookup_insert_ne in Hs by exact Hne. now left.
    + intros [= <- <-]. split; [auto|]. split; [reflexivity|auto].
Qed.

End PerModuleLevels.

(** ** What a successful [init] leaves behind *)
Section InitResult.

Import Townsville Lifecycle.

Variable rejects : transport -> option exn.

Lemma evaluateSettings_stages (s : settings) (st st' : state) :
  log st = None ->
  evaluateSettings rejects s st = (Normal tt, st') ->
  exists st1,
    match s_levels s with Some lv => getLogLevels lv | None => ret tt end (named s st)
    = (Normal tt, st1)
    /\ logLevels st' = logLevels st1
    /\ (truthy (s_level s) = true -> numLevel (s_level s) = Normal (logLevel st'))
    /\ (truthy (s_level s) = false -> logLevel st' = logLevel st)
    /\ appName st' = appName (named s st)
    /\ showName st' = showName (named s st)
    /\ showPid st' = showPid (named s st)
    /\ log st' = Some {| transports := requested s (determineTransLevel st');
                         levels := CUSTOM_DEFS_levels;
                         emitErrs := false; entries := [] |}
    /\ nrTransports st' = length (requested s (determineTransLevel st'))
    /\ Forall (fun t => rejects t = None) (requested s (determineTransLevel st')).
Proof.
  intros Hlog. unfold evaluateSettings. rewrite Hlog.
  unfold bind at 1. unfold modify at 1. unfold bind at 1.
  change {| logLevel := logLevel st; logLevels := logLevels st;
            appName := _; showName := _; showPid := _;
            log := log st; nrTransports := nrTransports st |} with (named s st).
  destruct (match s_levels s with Some lv => getLogLevels lv | None => ret tt end (named s st))
    as [[[]|e] st1] eqn:E1; [|discriminate].
  assert (H1 : logLevel st1 = logLevel st /\ appName st1 = appName (named s st)
               /\ showName st1 = showName (named s st)
               /\ showPid st1 = showPid (named s st)).
  { destruct (s_levels s) as [lv|].
    - apply getLogLevels_frame in E1 as (H & Ha & Hn & Hp & _). now repeat split.
    - injection E1 as <-. now repeat split. }
  destruct H1 as (Hl1 & Ha1 & Hn1 & Hp1).
  unfold bind at 1.
  destruct ((if truthy (s_level s)
             then let! n := lift (numLevel (s_level s)) in modify (set_logLevel n)
             else ret tt) st1) as [[[]|e] st2] eqn:E2; [|discriminate].
  assert (H2 : logLevels st2 = logLevels st1 /\ appName st2 = appName st1
               /\ showName st2 = showName st1 /\ showPid st2 = showPid st1
               /\ (truthy (s_level s) = true -> numLevel (s_level s) = Normal (logLevel st2))
               /\ (truthy (s_level s) = false -> logLevel st2 = logLevel st1)).
  { destruct (truthy (s_level s)).
    - unfold bind, lift, modify in E2.
      destruct (numLevel (s_level s)) as [n|e'] eqn:En; [|discriminate].
      injection E2 as <-. now repeat split.
    - injection E2 as <-. now repeat split. }
  destruct H2 as (Ht2 & Ha2 & Hn2 & Hp2 & Hy & Hk).
  clear E2.
  unfold bind at 1. unfold gets at 1.
  set (transLevel := determineTransLevel st2).
  assert (Hdet : forall ts n,
            determineTransLevel
              {| logLevel := logLevel st2; logLevels := logLevels st2;
                 appName := appName st2; showName := showName st2;
                 showPid := showPid st2; log := Some ts; nrTransports := n |}
            = transLevel) by reflexivity.
  unfold bind, construct, ret, throw, modify, requested.
  destruct (s_console s) as [c|], (s_file s) as [f|];
    repeat match goal with
           | |- context [rejects ?t] =>
               let E := fresh "E" in
               destruct (rejects t) as [e|] eqn:E; [discriminate|]
           end;
    intros [= <-]; exists st1; simpl; rewrite ?Hdet;
    (split; [reflexivity|]); (split; [exact Ht2|]); (split; [exact Hy|]);
    (split; [intros Hf; rewrite (Hk Hf); exact Hl1|]);
    (split; [rewrite Ha2, Ha1; reflexivity|]);
    (split; [rewrite Hn2, Hn1; reflexivity|]);
    (split; [rewrite Hp2, Hp1; reflexivity|]);
    (split; [reflexivity|]); (split; [reflexivity|]);
    repeat constructor; assumption.
Qed.

Lemma getLogLevels_other_keys (lv : list (string * value)) (k : string) :
  forall st r st',
  getLogLevels lv st = (r, st') ->
  ~ In k (map fst lv) ->
  logLevels st' !! k = logLevels st !! k.
Proof.
  induction lv as [|[k0 v0] lv IH]; intros st r st'; simpl.
  - unfold ret. now intros [= <- <-].
  - unfold bind, lift, modify. destruct (numLevel v0) as [n0|]; [|now intros [= <- <-]].
    intros Hrun Hk. rewrite (IH _ _ _ Hrun) by tauto. simpl.
    apply js_set_lookup_ne. intros ->. tauto.
Qed.

Lemma getLogLevels_success_lookup (lv : list (string * value)) : forall st st',
  getLogLevels lv st = (Normal tt, st') ->
  NoDup (map fst lv) ->
  forall k v, In (k, v) lv ->
    exists n, numLevel v = Normal n
              /\ (k <> "__proto__" -> logLevels st' !! k = Some n).
Proof.
  intros st st' Hrun Hnd k v Hin.
  destruct (String.eqb (typeof v) "string") eqn:Hs; [destruct (numLevel_of_string v Hs) as [n Hn]|].
  2:{ exfalso. apply in_split in Hin as (pre & post & ->).
      revert st Hrun. clear Hnd. induction pre as [|[k0 v0] pre IH]; intros st; simpl.
      - unfold bind, lift. now rewrite (numLevel_not_string v Hs).
      - unfold bind, lift, modify. destruct (numLevel v0); [apply IH|discriminate]. }
  exists n. split; [exact Hn|]. intros Hp.
  revert st Hrun Hnd Hin. induction lv as [|[k0 v0] lv IH]; intros st; simpl; [tauto|].
  unfold bind, lift, modify. destruct (numLevel v0) as [n0|] eqn:En0; [|discriminate].
  intros Hrun Hnd [[= -> ->]|Hin].
  - inversion Hnd as [|? ? Hnotin Hnd']; subst. rewrite list_elem_of_In in Hnotin.
    rewrite (getLogLevels_other_keys lv k _ _ _ Hrun Hnotin).
    simpl. rewrite js_set_lookup_eq by exact Hp. congruence.
  - inversion Hnd; subst. eapply IH; eauto.
Qed.

Lemma getLogLevels_nr (lv : list (string * value)) (n : nat) : forall st,
  getLogLevels lv (with_nrTransports n st)
  = (fst (getLogLevels lv st), with_nrTransports n (snd (getLogLevels lv st))).
Proof.
  induction lv as [|[k0 v0] lv IH]; intros st; simpl; [reflexivity|].
  unfold bind, lift, modify. destruct (numLevel v0) as [n0|]; [|reflexivity].
  apply (IH (set_logLevels (js_set k0 n0) st)).
Qed.

Lemma evaluateSettings_nr (s : settings) (n : nat) (st : state) :
  log st = None ->
  evaluateSettings rejects s (with_nrTransports n st)
  = match evaluateSettings rejects s st with
    | (Normal a, st') => (Normal a, st')
    | (Throw e, st') => (Throw e, with_nrTransports n st')
    end.
Proof.
  intros Hlog. unfold evaluateSettings. simpl log. rewrite Hlog.
  unfold bind, modify, gets, lift, ret, construct, throw.
  change {| logLevel := logLevel (with_nrTransports n st);
            logLevels := logLevels (with_nrTransports n st);
            appName := _; showName := _; showPid := _;
            log := log (with_nrTransports n st);
            nrTransports := nrTransports (with_nrTransports n st) |}
    with (with_nrTransports n (named s st)).
  change {| logLevel := logLevel st; logLevels := logLevels st;
            appName := _; showName := _; showPid := _;
            log := log st; nrTransports := nrTransports st |}
    with (named s st).
  assert (E1 : match s_levels s with
               | Some lv => getLogLevels lv
               | None => fun st0 => (Normal tt, st0)
               end (with_nrTransports n (named s st))
               = (fst (match s_levels s with
                       | Some lv => getLogLevels lv
                       | None => fun st0 => (Normal tt, st0)
                       end (named s st)),
                  with_nrTransports n
                    (snd (match s_levels s with
                          | Some lv => getLogLevels lv
                          | None => fun st0 => (Normal tt, st0)
                          end (named s st))))).
  { destruct (s_levels s); [apply getLogLevels_nr|reflexivity]. }
  rewrite E1. clear E1.
  destruct (match s_levels s with
            | Some lv => getLogLevels lv
            | None => fun st0 => (Normal tt, st0)
            end (named s st)) as [[[]|e] st1]; cbn [fst snd]; [|reflexivity].
  destruct (truthy (s_level s)); [destruct (numLevel (s_level s)) as [n0|e]|];
    [|reflexivity|].
  - change (determineTransLevel (set_logLevel n0 (with_nrTransports n st1)))
      with (determineTransLevel (set_logLevel n0 st1)).
    destruct (s_console s) as [c|], (s_file s) as [f|];
      repeat match goal with
             | |- context [rejects ?t] => destruct (rejects t)
             end; reflexivity.
  - change (determineTransLevel (with_nrTransports n st1))
      with (determineTransLevel st1).
    destruct (s_console s) as [c|], (s_file s) as [f|];
      repeat match goal with
             | |- context [rejects ?t] => destruct (rejects t)
             end; reflexivity.
Qed.


Lemma evaluateSettings_table (s : settings) (st : state) :
  log st = None ->
  logLevels (snd (evaluateSettings rejects s st))
  = logLevels (snd (match s_levels s with
                    | Some lv => getLogLevels lv
                    | None => ret tt
                    end (named s st)))
  /\ (logLevel (snd (evaluateSettings rejects s st)) = logLevel st
      \/ exists v, numLevel v = Normal (logLevel (snd (evaluateSettings rejects s st)))).
Proof.
  intros Hlog. unfold evaluateSettings. rewrite Hlog.
  unfold bind, modify, gets, lift, ret, construct, throw.
  change {| logLevel := logLevel st; logLevels := logLevels st;
            appName := _; showName := _; showPid := _;
            log := log st; nrTransports := nrTransports st |}
    with (named s st).
  assert (Hl : logLevel (snd (match s_levels s with
                              | Some lv => getLogLevels lv
                              | None => fun st0 => (Normal tt, st0)
                              end (named s st))) = logLevel st).
  { destruct (s_levels s) as [lv|]; [|reflexivity].
    destruct (getLogLevels lv (named s st)) as [r st1] eqn:E.
    now apply getLogLevels_frame in E as (H & _). }
  destruct (match s_levels s with
            | Some lv => getLogLevels lv
            | None => fun st0 => (Normal tt, st0)
            end (named s st)) as [[[]|e] st1]; cbn [fst snd] in *;
    [|split; [reflexivity|now left]].
  destruct (truthy (s_level s));
    [destruct (numLevel (s_level s)) as [n0|e] eqn:En|];
    [| split; [reflexivity|now left] |].
  - destruct (s_console s) as [c|], (s_file s) as [f|];
      repeat match goal with
             | |- context [rejects ?t] => destruct (rejects t)
             end; (split; [reflexivity|right; exists (s_level s); exact En]).
  - destruct (s_console s) as [c|], (s_file s) as [f|];
      repeat match goal with
             | |- context [rejects ?t] => destruct (rejects t)
             end; (split; [reflexivity|now left]).
Qed.

(** X3: after a successful [init] on a module that was not initialized,
    the application name is [settings.name], or "logger" when that is absent
    or empty; showName and showPid are resolved from the settings; and the
    default level is the rank of [settings.level] when that is truthy and is
    left as it was otherwise. *)
Theorem init_names_and_default_level (s : settings) (st st' : state) :
  log st = None ->
  init rejects (Some s) st = (Normal tt, st') ->
  (forall n, s_name s = Some n -> n <> "" -> appName st' = Some n)
  /\ (s_name s = None \/ s_name s = Some "" -> appName st' = Some "logger")
  /\ showName st' = Some (getShowName (s_showName s))
  /\ showPid st' = Some (truthy (s_showPid s))
  /\ (truthy (s_level s) = true -> numLevel (s_level s) = Normal (logLevel st'))
  /\ (truthy (s_level s) = false -> logLevel st' = logLevel st).
Proof.
  intros Hlog Hi. unfold init in Hi.
  destruct (evaluateSettings_stages s st st' Hlog Hi)
    as (st1 & _ & _ & Hy & Hk & Ha & Hn & Hp & _).
  split; [|split; [|repeat split; assumption]].
  - intros n Hs Hne. rewrite Ha. simpl. rewrite Hs.
    destruct (String.eqb_spec n ""); [contradiction|reflexivity].
  - intros [Hs|Hs]; rewrite Ha; simpl; rewrite Hs; reflexivity.
Qed.

(** X4: a successful [init] on a module that was not initialized builds
    one transport for each of the sections [console] and [file] that is
    present, the console one first, each at the transport level of the new
    tables and each accepted by the backend; the transport counter is their
    number and winston has received no call yet. *)
Theorem init_transports (s : settings) (st st' : state) :
  log st = None ->
  init rejects (Some s) st = (Normal tt, st') ->
  exists w,
    log st' = Some w
    /\ transports w = requested s (determineTransLevel st')
    /\ entries w = []
    /\ nrTransports st' = length (transports w)
    /\ Forall (fun t => rejects t = None) (transports w).
Proof.
  intros Hlog Hi. unfold init in Hi.
  destruct (evaluateSettings_stages s st st' Hlog Hi)
    as (st1 & _ & _ & _ & _ & _ & _ & _ & Hw & Hn & Hr).
  eexists. split; [exact Hw|]. simpl. now repeat split.
Qed.

(** X5: after a successful [init] whose [levels] object has distinct keys,
    every value of that object was a string, and every key other than
    "__proto__" is bound in the per-module table to the rank of its value. *)
Theorem init_per_module_levels (s : settings) (st st' : state)
  (lv : list (string * value)) (k : string) (v : value) :
  log st = None ->
  init rejects (Some s) st = (Normal tt, st') ->
  s_levels s = Some lv ->
  NoDup (map fst lv) ->
  In (k, v) lv ->
  exists n, numLevel v = Normal n
            /\ (k <> "__proto__" -> logLevels st' !! k = Some n).
Proof.
  intros Hlog Hi Hlv Hnd Hin. unfold init in Hi.
  destruct (evaluateSettings_stages s st st' Hlog Hi) as (st1 & H1 & Ht & _).
  rewrite Hlv in H1. rewrite Ht.
  exact (getLogLevels_success_lookup lv _ _ H1 Hnd k v Hin).
Qed.

(** X6: [deinit] followed by [init] behaves as [init] on the module as
    loaded: the same completion, and on success the very same state,
    whatever was configured before. When that [init] throws, the states
    differ only in the transport counter, which [deinit] does not reset. *)
Theorem deinit_then_init (s : option settings) (st : state) :
  init rejects s (snd (deinit st))
  = match init rejects s loaded with
    | (Normal a, st') => (Normal a, st')
    | (Throw e, st') => (Throw e, with_nrTransports (nrTransports st) st')
    end.
Proof.
  change (snd (deinit st)) with (with_nrTransports (nrTransports st) loaded).
  unfold init. now apply evaluateSettings_nr.
Qed.

(** X7: [init] never removes a module from the per-module table, whether
    it returns or throws: levels stored by an earlier [init] that failed stay
    in force for the next one. Only [deinit] empties the table. *)
Theorem init_keeps_per_module_levels (s : option settings) (st : state) (k : string) :
  is_Some (logLevels st !! k) ->
  is_Some (logLevels (snd (init rejects s st)) !! k).
Proof.
  intros Hk. destruct (log st) as [w|] eqn:Hlog.
  - rewrite init_noop_when_installed by congruence. exact Hk.
  - unfold init.
    destruct (evaluateSettings_table
                (match s with Some s0 => s0 | None => DEFAULT_SETTINGS end) st Hlog)
      as [-> _].
    destruct (s_levels _) as [lv|]; [|exact Hk].
    destruct (getLogLevels lv _) as [r st1] eqn:E.
    apply getLogLevels_grows in E as (Hg & _). now apply Hg.
Qed.

End InitResult.

Lemma init_names_and_default_level_witness :
  let st' := snd (Townsville.init Samples.accept_all (Some Samples.bogus_syslog)
                    Townsville.loaded) in
  Townsville.appName st' = Some "logger" /\ Townsville.logLevel st' = 30.
Proof.
  intros st'.
  destruct (init_names_and_default_level Samples.accept_all Samples.bogus_syslog
              Townsville.loaded st' eq_refl eq_refl)
    as (_ & Ha & _ & _ & _ & Hl).
  split; [apply Ha; now left|]. rewrite Hl; reflexivity.
Defined.

Lemma init_transports_witness :
  exists w,
    Townsville.log (snd (Townsville.init Samples.accept_all (Some Samples.other)
                           Townsville.loaded)) = Some w
    /\ Townsville.transports w
       = [Townsville.getFileTransport
            {| Townsville.ts_timestamp := VUndefined; Townsville.ts_colorize := VUndefined;
               Townsville.ts_path := VString "/tmp/t.log";
               Townsville.ts_tailable := VUndefined;
               Townsville.ts_rollingFile := None |} "trace"]
    /\ Townsville.entries w = []
    /\ Townsville.nrTransports (snd (Townsville.init Samples.accept_all
                                       (Some Samples.other) Townsville.loaded))
       = length (Townsville.transports w)
    /\ Forall (fun t => Samples.accept_all t = None) (Townsville.transports w).
Proof.
  destruct (init_transports Samples.accept_all Samples.other Townsville.loaded
              (snd (Townsville.init Samples.accept_all (Some Samples.other)
                      Townsville.loaded)) eq_refl eq_refl)
    as (w & Hw & Ht & He & Hn & Hr).
  exists w. split; [exact Hw|]. split; [exact Ht|]. repeat split; assumption.
Defined.

Lemma init_per_module_levels_witness :
  exists n, Townsville.numLevel (VString "error") = Normal n
            /\ ("aap" <> "__proto__" ->
                Townsville.logLevels
                  (snd (Townsville.init Samples.accept_all (Some Samples.aap_error)
                          Townsville.loaded)) !! "aap" = Some n).
Proof.
  apply (init_per_module_levels Samples.accept_all Samples.aap_error Townsville.loaded
           (snd (Townsville.init Samples.accept_all (Some Samples.aap_error)
                   Townsville.loaded))
           [("aap", VString "error")] "aap" (VString "error")).
  - reflexivity.
  - reflexivity.
  - reflexivity.
  - apply (bool_decide_unpack _). vm_compute. exact I.
  - now left.
Defined.

Lemma init_keeps_per_module_levels_witness :
  is_Some (Townsville.logLevels
             (snd (Townsville.init Samples.accept_all (Some Samples.other)
                     (snd (Townsville.init Samples.accept_all
                             (Some Samples.numeric_level) Townsville.loaded))))
           !! "aap").
Proof.
  apply init_keeps_per_module_levels. vm_compute. eauto.
Defined.

(** ** Loggers at work *)
Section LoggersAtWork.

Import Townsville Lifecycle.

Lemma predicate_at_creation_level (pid : N) (name : string) (st0 st : state)
  (l : level_name) :
  inherited name = false ->
  log st <> None ->
  call_predicate l (TownsvilleLogger pid name st0) st
  = (Normal (rank l <=? default (logLevel st0) (logLevels st0 !! name)), st).
Proof.
  intros Hi Hlog. rewrite call_predicate_unfold. unfold _isToLog.
  destruct (log st); [|congruence].
  unfold TownsvilleLogger, js_in, js_get. simpl. rewrite Hi.
  destruct (logLevels st0 !! name); reflexivity.
Qed.

(** X8: a logger keeps the level it was created with. For a module name
    that [Object.prototype] does not define, its predicates answer, in any
    later state with a pipeline, by the per-module or default level of the
    state it was created in; a later [init] or [deinit] does not reach it. *)
Theorem logger_keeps_creation_level (pid : N) (name : string) (st0 st : state)
  (l : level_name) :
  inherited name = false ->
  log st <> None ->
  call_predicate l (TownsvilleLogger pid name st0) st
  = (Normal (rank l <=? default (logLevel st0) (logLevels st0 !! name)), st).
Proof. apply predicate_at_creation_level. Qed.

Lemma logger_keeps_creation_level_witness :
  call_predicate LTrace (TownsvilleLogger 7 "noot" loaded)
    (snd (init Samples.accept_all (Some Samples.other) loaded))
  = (Normal false, snd (init Samples.accept_all (Some Samples.other) loaded)).
Proof.
  apply (logger_keeps_creation_level 7 "noot" loaded
           (snd (init Samples.accept_all (Some Samples.other) loaded)) LTrace).
  - reflexivity.
  - vm_compute. discriminate.
Defined.

Lemma severity_rejected (l : level_name) (this : logger) (args : arguments)
  (st : state) :
  log st <> None ->
  call_predicate l this st = (Normal false, st) \/ nrTransports st = 0%nat ->
  call_severity l this args st = (Normal tt, st).
Proof.
  intros Hlog Hrej. destruct (log st) as [w|] eqn:Ew; [|congruence].
  rewrite call_severity_unfold.
  destruct (severity_installed (rank l) (method_of l) this args st w Ew)
    as [(_ & Hs)|(Hacc & _)]; [exact Hs|].
  exfalso. apply andb_true_iff in Hacc as [Hge Hn].
  destruct Hrej as [Hp|Hz].
  - rewrite call_predicate_unfold in Hp. unfold _isToLog in Hp. rewrite Ew in Hp.
    congruence.
  - rewrite Hz in Hn. discriminate.
Qed.

(** X9: with a pipeline installed, a severity call that the logger's level
    does not let through, or that finds the transport counter at zero,
    returns normally and changes nothing, whatever its arguments are; they
    are not even converted, so an argument that cannot be serialised does no
    harm. *)
Theorem rejected_call_is_noop (l : level_name) (this : logger) (args : arguments)
  (st : state) :
  log st <> None ->
  call_predicate l this st = (Normal false, st) \/ nrTransports st = 0%nat ->
  call_severity l this args st = (Normal tt, st).
Proof. apply severity_rejected. Qed.

Lemma rejected_call_is_noop_witness :
  let st := snd (init Samples.accept_all (Some Samples.aap_error) loaded) in
  call_severity LDebug (TownsvilleLogger 7 "noot" st)
    {| arg0 := "state"; rest := [VObject JsonThrows] |} st
  = (Normal tt, st).
Proof.
  intros st. apply rejected_call_is_noop.
  - vm_compute. discriminate.
  - left. reflexivity.
Defined.

(** X10: when the settings name neither a console nor a file section, a
    successful [init] installs a pipeline without transports; afterwards
    every predicate still answers, but no severity call hands anything to
    winston. *)
Theorem no_section_no_output (rejects : transport -> option exn) (s : settings)
  (st st' : state) :
  log st = None ->
  s_console s = None ->
  s_file s = None ->
  init rejects (Some s) st = (Normal tt, st') ->
  nrTransports st' = 0%nat
  /\ forall l this args, call_severity l this args st' = (Normal tt, st').
Proof.
  intros Hlog Hc Hf Hi.
  unfold init in Hi.
  destruct (evaluateSettings_stages rejects s st st' Hlog Hi)
    as (st1 & _ & _ & _ & _ & _ & _ & _ & Hw & Hn & _).
  unfold requested in Hn. rewrite Hc, Hf in Hn. simpl in Hn.
  split; [exact Hn|]. intros l this args.
  apply severity_rejected; [congruence|now right].
Qed.

Lemma no_section_no_output_witness :
  let st' := snd (init Samples.accept_all (Some Samples.bogus_syslog) loaded) in
  nrTransports st' = 0%nat
  /\ forall l this args, call_severity l this args st' = (Normal tt, st').
Proof.
  intros st'.
  apply (no_section_no_output Samples.accept_all Samples.bogus_syslog loaded st');
    reflexivity.
Defined.

(** X11: a logger that lets a rank through lets every more severe rank
    through as well. *)
Theorem acceptance_downward_closed (l l' : level_name) (this : logger) (st : state) :
  rank l <= rank l' ->
  call_predicate l' this st = (Normal true, st) ->
  call_predicate l this st = (Normal true, st).
Proof.
  rewrite !call_predicate_unfold. unfold _isToLog.
  destruct (log st); [|discriminate].
  intros Hr [= H]. f_equal. f_equal.
  destruct (_level this) as [n| |]; simpl in *; try discriminate.
  apply Z.leb_le in H. apply Z.leb_le. lia.
Qed.

Lemma acceptance_downward_closed_witness :
  let st := snd (init Samples.accept_all (Some Samples.aap_error) loaded) in
  call_predicate LFatal (TownsvilleLogger 7 "aap" st) st = (Normal true, st).
Proof.
  intros st. apply (acceptance_downward_closed LFatal LError).
  - vm_compute. discriminate.
  - reflexivity.
Defined.

Lemma severity_appends (level : Z) (method : string) (this : logger) (args : arguments)
  (st : state) (w : winston_logger) :
  log st = Some w ->
  exists w' more,
    log (snd (severity level method this args st)) = Some w'
    /\ transports w' = transports w
    /\ entries w' = (entries w ++ more)%list
    /\ (length more <= 1)%nat.
Proof.
  intros Ew.
  destruct (severity_installed level method this args st w Ew)
    as [(_ & Hs)|(_ & r & _ & Hr)].
  - rewrite Hs. exists w, []. simpl. rewrite app_nil_r. repeat split; auto.
  - destruct r as [args'|e].
    + destruct Hr as (st' & Hs & Hl). rewrite Hs. simpl.
      eexists; eexists. split; [exact Hl|]. simpl. repeat split; auto.
    + destruct Hr as (Hs & _). rewrite Hs. exists w, []. simpl.
      rewrite app_nil_r. repeat split; auto.
Qed.

(** X12: short of [deinit], what winston has received only grows: after
    any sequence of calls the earlier entries are still there, in their
    order, followed by at most one new entry per call, and the transports
    are the same. *)
Theorem entries_only_grow (rejects : transport -> option exn) (cs : list call) :
  forall st w,
  log st = Some w ->
  exists w' more,
    log (run_calls rejects cs st) = Some w'
    /\ transports w' = transports w
    /\ entries w' = (entries w ++ more)%list
    /\ (length more <= length cs)%nat.
Proof.
  induction cs as [|c cs IH]; intros st w Ew; simpl.
  - exists w, []. rewrite app_nil_r. repeat split; auto.
  - assert (H : exists w1 more1,
               log (run_call rejects c st) = Some w1
               /\ transports w1 = transports w
               /\ entries w1 = (entries w ++ more1)%list
               /\ (length more1 <= 1)%nat).
    { destruct c as [s|pid name|l this args|l this|]; simpl.
      - rewrite init_noop_when_installed by congruence.
        exists w, []. rewrite app_nil_r. repeat split; auto.
      - exists w, []. rewrite app_nil_r. repeat split; auto.
      - rewrite call_severity_unfold. now apply severity_appends.
      - rewrite call_predicate_unfold. unfold _isToLog. rewrite Ew. simpl.
        exists w, []. rewrite app_nil_r. repeat split; auto.
      - exists w, []. rewrite app_nil_r. repeat split; auto. }
    destruct H as (w1 & more1 & Hw1 & Ht1 & He1 & Hl1).
    destruct (IH _ _ Hw1) as (w' & more & Hw' & Ht' & He' & Hl').
    exists w', (more1 ++ more)%list. split; [exact Hw'|].
    split; [congruence|]. split.
    + rewrite He', He1. now rewrite <- app_assoc.
    + rewrite length_app. lia.
Qed.

Lemma entries_only_grow_witness :
  let st := snd (init Samples.accept_all (Some Samples.aap_error) loaded) in
  let this := TownsvilleLogger 7 "noot" st in
  exists w' more,
    log (run_calls Samples.accept_all
           [CSeverity LInfo this {| arg0 := "one"; rest := [] |};
            CSeverity LDebug this {| arg0 := "two"; rest := [] |}] st) = Some w'
    /\ transports w' = [getConsoleTransport Samples.no_section "info"]
    /\ entries w' = ([] ++ more)%list
    /\ (length more <= 2)%nat.
Proof.
  intros st this.
  destruct (entries_only_grow Samples.accept_all
              [CSeverity LInfo this {| arg0 := "one"; rest := [] |};
               CSeverity LDebug this {| arg0 := "two"; rest := [] |}] st
              {| transports := [getConsoleTransport Samples.no_section "info"];
                 levels := CUSTOM_DEFS_levels; emitErrs := false; entries := [] |}
              eq_refl) as (w' & more & H).
  exists w', more. exact H.
Defined.

(** X13: the conversion of the extra arguments, when it succeeds, keeps
    their number and order, replaces each argument of type 'object' by what
    [JSON.stringify] returns for it, leaves every other argument as it is,
    and leaves no argument of type 'object' behind. *)
Theorem stringify_objects_pointwise (l l' : list value) :
  stringify_objects l = Normal l' ->
  Forall2 (fun v v' => if String.eqb (typeof v) "object"
                       then JSON_stringify v = Normal v' else v' = v) l l'
  /\ Forall (fun v' => String.eqb (typeof v') "object" = false) l'.
Proof.
  revert l'. induction l as [|v l IH]; intros l'; simpl.
  - intros [= <-]. split; constructor.
  - destruct (String.eqb (typeof v) "object") eqn:Ho.
    + destruct (JSON_stringify v) as [v'|] eqn:Ej; [|discriminate].
      destruct (stringify_objects l) as [l0|]; [|discriminate].
      intros [= <-]. destruct (IH l0 eq_refl) as [H2 Hn].
      split; constructor; auto.
      * now rewrite Ho.
      * destruct v as [| | | | | |[]|]; simpl in Ej; try discriminate;
          injection Ej as <-; reflexivity.
    + destruct (stringify_objects l) as [l0|]; [|discriminate].
      intros [= <-]. destruct (IH l0 eq_refl) as [H2 Hn].
      split; constructor; auto. now rewrite Ho.
Qed.

Lemma stringify_objects_pointwise_witness :
  Forall2 (fun v v' => if String.eqb (typeof v) "object"
                       then JSON_stringify v = Normal v' else v' = v)
    [VNumber 1; VObject (JsonText "{}"); VNull]
    [VNumber 1; VString "{}"; VString "null"]
  /\ Forall (fun v' => String.eqb (typeof v') "object" = false)
       [VNumber 1; VString "{}"; VString "null"].
Proof.
  apply stringify_objects_pointwise. reflexivity.
Defined.

End LoggersAtWork.

(** ** What every reachable state satisfies *)
Section Reachable.

Import Townsville Lifecycle.

Variable rejects : transport -> option exn.

Lemma numLevel_strLevel_declared (r : Z) :
  declared r -> numLevel (VString (strLevel r)) = Normal r.
Proof.
  unfold declared. simpl. intros H.
  repeat (destruct H as [<-|H]; [reflexivity|]). destruct H.
Qed.

Lemma getShowName_mode (v : value) :
  getShowName v = SN_NONE \/ getShowName v = SN_SIMPLE \/ getShowName v = SN_FULL.
Proof.
  unfold getShowName. destruct v; try (destruct (truthy _); tauto).
  destruct (String.eqb _ "full"); [tauto|].
  destruct (String.eqb _ "none" || String.eqb _ "false"); tauto.
Qed.

Lemma invariant_of_configuration (st st' : state) :
  configuration st' = configuration st -> invariant st -> invariant st'.
Proof.
  unfold configuration. intros [= Ha Hn Hp Hl Ht Hw] (Hd & Htr & Hpr & Hs).
  split; [|split; [|split]].
  - destruct Hd as [Hd1 Hd2]. split; [now rewrite Hl|].
    intros k v. rewrite Ht. apply Hd2.
  - intros w' Hw'. rewrite Hw' in Hw. simpl in Hw.
    destruct (log st) as [w|] eqn:Ew; [|discriminate]. simpl in Hw.
    injection Hw as Hw. rewrite Hw.
    replace (determineTransLevel st') with (determineTransLevel st)
      by (unfold determineTransLevel; now rewrite Hl, Ht).
    now apply Htr.
  - now rewrite Ht.
  - intros Hlog. destruct Hs as (a & sn & sp & H1 & H2 & H3 & H4).
    + intros E. rewrite E in Hw. destruct (log st'); [discriminate|congruence].
    + exists a, sn, sp. repeat split; congruence.
Qed.

Lemma invariant_init (s : option settings) (st : state) :
  invariant st -> invariant (snd (init rejects s st)).
Proof.
  intros Hinv. destruct (log st) as [w|] eqn:Hlog.
  { rewrite init_noop_when_installed by congruence. exact Hinv. }
  destruct Hinv as ((Hd1 & Hd2) & _ & Hpr & _).
  unfold init. set (s0 := match s with Some s0 => s0 | None => DEFAULT_SETTINGS end).
  destruct (evaluateSettings_table rejects s0 st Hlog) as [Ht Hl].
  pose proof (evaluateSettings_outcome rejects s0 st Hlog) as Hout.
  assert (Hgrow :
    (forall k n, logLevels (snd (match s_levels s0 with
                                 | Some lv => getLogLevels lv
                                 | None => ret tt
                                 end (named s0 st))) !! k = Some n -> declared n)
    /\ logLevels (snd (match s_levels s0 with
                       | Some lv => getLogLevels lv
                       | None => ret tt
                       end (named s0 st))) !! "__proto__" = None).
  { destruct (s_levels s0) as [lv|]; [|split; [exact Hd2|exact Hpr]].
    destruct (getLogLevels lv (named s0 st)) as [r st1] eqn:E.
    apply getLogLevels_grows in E as (_ & Hp & Hd). simpl. split.
    - intros k n Hk. destruct (Hd k n Hk) as [Ho|Ho]; [now apply (Hd2 k)|exact Ho].
    - rewrite Hp. exact Hpr. }
  destruct Hgrow as [Hg1 Hg2].
  split; [|split; [|split]].
  - split.
    + destruct Hl as [-> |(v & Hv)]; [exact Hd1|].
      eapply numLevel_declared; eauto.
    + intros k v. rewrite Ht. apply Hg1.
  - intros w' Hw'.
    destruct (evaluateSettings rejects s0 st) as [[[]|e] st'] eqn:E; simpl in *.
    + destruct Hout as (ts & Hts & _ & Hall). rewrite Hts in Hw'.
      injection Hw' as <-. exact Hall.
    + destruct Hout as (Hn & _). congruence.
  - rewrite Ht. exact Hg2.
  - intros Hlog'.
    destruct (evaluateSettings rejects s0 st) as [[[]|e] st'] eqn:E; simpl in *.
    + destruct (evaluateSettings_stages rejects s0 st st' Hlog E)
        as (st1 & _ & _ & _ & _ & Ha & Hn & Hp & _).
      eexists; eexists; eexists. split; [exact Ha|]. split; [exact Hn|].
      split; [exact Hp|]. apply getShowName_mode.
    + destruct Hout as (Hn & _). congruence.
Qed.

Lemma invariant_loaded : invariant loaded.
Proof.
  split; [|split; [|split]].
  - split; [vm_compute; tauto|]. intros k v H. discriminate.
  - intros w H. discriminate.
  - reflexivity.
  - intros H. now contradiction H.
Qed.

Lemma invariant_reachable (st : state) :
  reachable rejects st -> invariant st.
Proof.
  induction 1 as [|c st Hr IH|st Hr IH].
  - exact invariant_loaded.
  - destruct c as [s|pid name|l this args|l this|]; simpl.
    + now apply invariant_init.
    + exact IH.
    + apply (invariant_of_configuration st); [|exact IH].
      rewrite call_severity_unfold. apply severity_frame.
    + rewrite call_predicate_unfold. unfold _isToLog.
      destruct (log st); exact IH.
    + apply (invariant_of_configuration st); [reflexivity|exact IH].
  - split; [|split; [|split]].
    + split; [vm_compute; tauto|]. intros k v H'. discriminate.
    + intros w H'. discriminate.
    + reflexivity.
    + intros H'. now contradiction H'.
Qed.

(** X14: in the module as loaded and after any sequence of public calls,
    [deinit] included: the default level and every per-module level are among
    the six declared ranks; no level is ever stored under "__proto__"; every
    transport of an installed pipeline carries the transport level of the
    tables as they are now; and with a pipeline installed the application
    name, showPid and showName are set, showName to one of its three modes. *)
Theorem reachable_invariant (st : state) :
  reachable rejects st -> invariant st.
Proof. apply invariant_reachable. Qed.

(** X15: in a reachable state with a pipeline, whatever rank a logger
    created now (for a module name that [Object.prototype] does not define)
    lets through is no more verbose than the level of any transport: the
    transport level, read back as a rank, is at least that rank. *)
Theorem transport_level_covers_loggers (st : state) (w : winston_logger)
  (pid : N) (name : string) (l : level_name) :
  reachable rejects st ->
  log st = Some w ->
  inherited name = false ->
  call_predicate l (TownsvilleLogger pid name st) st = (Normal true, st) ->
  Forall (fun t => exists m, numLevel (VString (level (opts_of t))) = Normal m
                             /\ rank l <= m) (transports w).
Proof.
  intros Hr Ew Hi Hp.
  destruct (invariant_reachable st Hr) as ((Hd1 & Hd2) & Htr & _ & _).
  destruct (determineTransLevel_least_severe st) as (m & Hm & Hin & Hle & Hall).
  assert (Hdm : declared m).
  { destruct Hin as [->|(k & Hk)]; [exact Hd1|now apply (Hd2 k)]. }
  rewrite (predicate_at_creation_level pid name st st l Hi) in Hp by congruence.
  injection Hp as Hp. apply Z.leb_le in Hp.
  assert (Hlm : default (logLevel st) (logLevels st !! name) <= m).
  { destruct (logLevels st !! name) as [n|] eqn:En; simpl; [now apply (Hall name)|exact Hle]. }
  eapply Forall_impl; [exact (Htr w Ew)|].
  intros t Ht. simpl in Ht. exists m. split; [|lia].
  rewrite Ht, Hm. now apply numLevel_strLevel_declared.
Qed.

End Reachable.

Lemma transport_level_covers_loggers_witness :
  let st := snd (Townsville.init Samples.accept_all (Some Samples.other)
                   Townsville.loaded) in
  exists w,
    Townsville.log st = Some w
    /\ Forall (fun t => exists m,
                 Townsville.numLevel
                   (VString (Townsville.level (Townsville.opts_of t))) = Normal m
                 /\ Townsville.rank Townsville.LDebug <= m) (Townsville.transports w).
Proof.
  intros st.
  eexists. split; [reflexivity|].
  apply (transport_level_covers_loggers Samples.accept_all st _ 7 "noot"
           Townsville.LDebug).
  - apply (Lifecycle.reach_call Samples.accept_all
             (Townsville.CInit (Some Samples.other))).
    apply Lifecycle.reach_loaded.
  - reflexivity.
  - reflexivity.
  - reflexivity.
Defined.

Lemma reachable_invariant_witness :
  Lifecycle.invariant
    (snd (Townsville.deinit
            (snd (Townsville.init Samples.accept_all (Some Samples.numeric_level)
                    Townsville.loaded)))).
Proof.
  apply (reachable_invariant Samples.accept_all).
  apply Lifecycle.reach_deinit.
  apply (Lifecycle.reach_call Samples.accept_all
           (Townsville.CInit (Some Samples.numeric_level))).
  apply Lifecycle.reach_loaded.
Defined.

(** ** Shutdown *)
Section Shutdown.

Import Townsville Lifecycle.

Lemma handleFinish_counter (st : state) :
  nrTransports (snd (handleFinish st)) = (nrTransports st - 1)%nat.
Proof.
  unfold handleFinish, modify. simpl.
  destruct (Nat.ltb_spec 0 (nrTransports st)); lia.
Qed.

Lemma run_events_cons (ev : event) (evs : list event) (p : polling) :
  run_events (ev :: evs) p = run_events evs (step p ev).
Proof. reflexivity. Qed.

Lemma step_Finish (p : polling) :
  step p Finish = {| module_state := snd (handleFinish (module_state p));
                     timer_set := timer_set p; callbacks := callbacks p |}.
Proof. reflexivity. Qed.

Lemma step_Tick (p : polling) :
  step p Tick = if timer_set p && on_interval (module_state p)
                then {| module_state := module_state p; timer_set := false;
                        callbacks := S (callbacks p) |}
                else p.
Proof. reflexivity. Qed.

Lemma finishes_cons (ev : event) (evs : list event) :
  finishes (ev :: evs)
  = (match ev with Finish => 1 | Tick => 0 end + finishes evs)%nat.
Proof. destruct ev; reflexivity. Qed.

Lemma on_interval_zero (st : state) :
  on_interval st = true <-> nrTransports st = 0%nat.
Proof.
  unfold on_interval. destruct (Nat.leb_spec (nrTransports st) 0); split; intros H';
    try reflexivity; try lia; discriminate.
Qed.

Lemma run_events_timer_off (evs : list event) : forall p,
  timer_set p = false ->
  callbacks (run_events evs p) = callbacks p
  /\ timer_set (run_events evs p) = false.
Proof.
  induction evs as [|ev evs IH]; intros p Hp; [now split|].
  rewrite run_events_cons. destruct ev.
  - rewrite step_Finish.
    destruct (IH {| module_state := snd (handleFinish (module_state p));
                    timer_set := timer_set p; callbacks := callbacks p |} Hp)
      as [H1 H2]. now split.
  - rewrite step_Tick, Hp. simpl. now apply IH.
Qed.

Lemma run_events_quiet (evs : list event) : forall p,
  (finishes evs < nrTransports (module_state p))%nat ->
  callbacks (run_events evs p) = callbacks p.
Proof.
  induction evs as [|ev evs IH]; intros p Hlt; [reflexivity|].
  rewrite run_events_cons. rewrite finishes_cons in Hlt. destruct ev.
  - rewrite step_Finish, IH; [reflexivity|]. cbn [module_state].
    rewrite handleFinish_counter. lia.
  - rewrite step_Tick.
    destruct (on_interval (module_state p)) eqn:E.
    + apply on_interval_zero in E. lia.
    + rewrite andb_false_r. apply IH. exact Hlt.
Qed.

Lemma run_events_fires (pre post : list event) : forall p,
  timer_set p = true ->
  (nrTransports (module_state p) <= finishes pre)%nat ->
  callbacks (run_events (pre ++ Tick :: post) p) = S (callbacks p).
Proof.
  induction pre as [|ev pre IH]; intros p Hp Hle.
  - cbn [app]. rewrite run_events_cons, step_Tick, Hp.
    assert (E : on_interval (module_state p) = true).
    { apply on_interval_zero. unfold finishes in Hle. simpl in Hle. lia. }
    rewrite E. cbn [andb].
    now destruct (run_events_timer_off post
                    {| module_state := module_state p; timer_set := false;
                       callbacks := S (callbacks p) |} eq_refl) as [-> _].
  - rewrite <- app_comm_cons, run_events_cons. rewrite finishes_cons in Hle.
    destruct ev.
    + rewrite step_Finish, IH; [reflexivity|exact Hp|]. cbn [module_state].
      rewrite handleFinish_counter. lia.
    + rewrite step_Tick, Hp. cbn [andb].
      destruct (on_interval (module_state p)) eqn:E.
      * now destruct (run_events_timer_off (pre ++ Tick :: post)
                        {| module_state := module_state p; timer_set := false;
                           callbacks := S (callbacks p) |} eq_refl) as [-> _].
      * apply IH; [exact Hp|exact Hle].
Qed.

Lemma run_events_at_most_once (evs : list event) : forall p,
  (callbacks (run_events evs p) <= S (callbacks p))%nat.
Proof.
  induction evs as [|ev evs IH]; intros p; [simpl; lia|].
  rewrite run_events_cons. destruct ev.
  - rewrite step_Finish. apply (IH {| module_state := snd (handleFinish (module_state p));
                                      timer_set := timer_set p; callbacks := callbacks p |}).
  - rewrite step_Tick.
    destruct (timer_set p && on_interval (module_state p)); [|apply IH].
    destruct (run_events_timer_off evs
                {| module_state := module_state p; timer_set := false;
                   callbacks := S (callbacks p) |} eq_refl) as [-> _].
    simpl. lia.
Qed.

Lemma run_events_module (evs : list event) : forall p,
  nrTransports (module_state (run_events evs p))
  = (nrTransports (module_state p) - finishes evs)%nat
  /\ log (module_state (run_events evs p)) = log (module_state p).
Proof.
  induction evs as [|ev evs IH]; intros p.
  - split; [unfold finishes; simpl; lia|reflexivity].
  - rewrite run_events_cons, finishes_cons. destruct ev.
    + rewrite step_Finish. destruct (IH {| module_state := snd (handleFinish (module_state p));
                                          timer_set := timer_set p;
                                          callbacks := callbacks p |}) as [-> ->].
      cbn [module_state]. rewrite handleFinish_counter. split; [lia|reflexivity].
    + rewrite step_Tick.
      destruct (timer_set p && on_interval (module_state p)).
      * destruct (IH {| module_state := module_state p; timer_set := false;
                        callbacks := S (callbacks p) |}) as [-> ->]. now split.
      * apply IH.
Qed.

(** X16: after [end(callback)] the callback is called at most once; it is
    not called as long as fewer transports have finished than the counter
    held at the call; it is called, exactly once, at the first interval that
    elapses after that many have finished; and without a callback no timer
    is started and nothing is called. *)
Theorem end_callback_once (st : state) (evs : list event) :
  (callbacks (run_events evs (after_end true st)) <= 1)%nat
  /\ ((finishes evs < nrTransports st)%nat ->
      callbacks (run_events evs (after_end true st)) = 0%nat)
  /\ (forall pre post, evs = (pre ++ Tick :: post)%list ->
        (nrTransports st <= finishes pre)%nat ->
        callbacks (run_events evs (after_end true st)) = 1%nat)
  /\ callbacks (run_events evs (after_end false st)) = 0%nat.
Proof.
  split; [|split; [|split]].
  - apply (run_events_at_most_once evs (after_end true st)).
  - intros Hlt. now rewrite run_events_quiet.
  - intros pre post -> Hle. now rewrite run_events_fires.
  - now destruct (run_events_timer_off evs (after_end false st) eq_refl) as [-> _].
Qed.

Lemma end_callback_once_witness :
  let st := snd (init Samples.accept_all (Some Samples.aap_error) loaded) in
  callbacks (run_events [Tick; Tick] (after_end true st)) = 0%nat
  /\ callbacks (run_events [Tick; Finish; Tick; Tick] (after_end true st)) = 1%nat.
Proof.
  intros st. split.
  - apply (proj1 (proj2 (end_callback_once st [Tick; Tick]))). vm_compute. lia.
  - apply (proj1 (proj2 (proj2 (end_callback_once st [Tick; Finish; Tick; Tick])))
             [Tick; Finish] [Tick]); [reflexivity|]. vm_compute. lia.
Defined.

(** X17: the transport counter only goes down, by one for each 'finish'
    and never below zero; once as many transports have finished as [init]
    built, every severity call is a no-op although the pipeline is still
    installed. *)
Theorem finished_transports_silence (st : state) (evs : list event) :
  log st <> None ->
  (nrTransports st <= finishes evs)%nat ->
  let st' := module_state (run_events evs (after_end true st)) in
  nrTransports st' = 0%nat
  /\ log st' = log st
  /\ forall l this args, call_severity l this args st' = (Normal tt, st').
Proof.
  intros Hlog Hle st'.
  destruct (run_events_module evs (after_end true st)) as [Hn Hl].
simpl in Hn, Hl.
  assert (Hz : nrTransports st' = 0%nat) by (unfold st'; rewrite Hn; lia).
  split; [exact Hz|]. split; [exact Hl|].
  intros l this args. apply severity_rejected; [unfold st'; congruence|now right].
Qed.

Lemma finished_transports_silence_witness :
  let st := snd (init Samples.accept_all (Some Samples.aap_error) loaded) in
  let st' := module_state (run_events [Finish] (after_end true st)) in
  nrTransports st' = 0%nat
  /\ log st' = log st
  /\ forall l this args, call_severity l this args st' = (Normal tt, st').
Proof.
  intros st. apply (finished_transports_silence st [Finish]).
  - vm_compute. discriminate.
  - vm_compute. lia.
Defined.

End Shutdown.

(** ** Levels on the way to syslog *)
Section SyslogLevels.

(** X18: whatever number the facade turns into a level name, the syslog
    transport logs it at one of the five syslog levels crit, error, warning,
    info and debug; it is debug exactly when the number is none of 0, 10, 20
    and 30, so debug and trace messages, and those of any unknown level,
    arrive at the same syslog level. Message, meta and callback are passed
    on as they are. *)
Theorem syslog_level_of_rank (r : Z) :
  In (MappedSyslog.syslogLevel (CsLogger.strLevel r))
     ["crit"; "error"; "warning"; "info"; "debug"]
  /\ (MappedSyslog.syslogLevel (CsLogger.strLevel r) = "debug"
      <-> ~ In r [0; 10; 20; 30])
  /\ forall (msg meta callback : value),
       MappedSyslog.log (CsLogger.strLevel r) msg meta callback
       = (MappedSyslog.syslogLevel (CsLogger.strLevel r), msg, meta, callback).
Proof.
  split; [|split; [|reflexivity]].
  - unfold CsLogger.strLevel.
    repeat match goal with
           | |- context [?a =? ?b] => destruct (a =? b)
           end; simpl; tauto.
  - unfold CsLogger.strLevel, CsLogger.NR_FATAL, CsLogger.NR_ERROR, CsLogger.NR_WARN,
      CsLogger.NR_INFO, CsLogger.NR_DEBUG, CsLogger.NR_TRACE.
    repeat match goal with
           | |- context [?a =? ?b] => destruct (Z.eqb_spec a b)
           end; subst; simpl; split; intros H; try discriminate; try reflexivity;
      try (exfalso; apply H; tauto); lia.
Qed.

End SyslogLevels.

(** ** The older entry point at work *)
Section CsAtWork.

Import CsLogger.

Lemma cs_raise_to_fold (l : list (string * Z)) (d : Z) :
  fold_left raise_to l d = fold_left Townsville.raise_to l d.
Proof.
  revert d. induction l as [|kv l IH]; intros d; simpl; [reflexivity|].
  now rewrite raise_to_same, IH.
Qed.

(** X19: the older [determineTransLevel], whose loop compares with [>=],
    also ends on the name of the largest rank among the default level and
    the per-module levels, and so agrees with the current one on the same
    tables. *)
Theorem cs_determineTransLevel_least_severe (st : state) :
  (exists m, determineTransLevel st = strLevel m
             /\ Spec.least_severe m (logLevel st) (logLevels st))
  /\ forall st' : Townsville.state,
       Townsville.logLevel st' = logLevel st ->
       Townsville.logLevels st' = logLevels st ->
       Townsville.determineTransLevel st' = determineTransLevel st.
Proof.
  split.
  - destruct (determineTransLevel_least_severe
                {| Townsville.logLevel := logLevel st;
                   Townsville.logLevels := logLevels st;
                   Townsville.appName := None; Townsville.showName := None;
                   Townsville.showPid := None; Townsville.log := None;
                   Townsville.nrTransports := 0 |}) as (m & Hm & Hmax).
    exists m. split; [|exact Hmax].
    unfold determineTransLevel. rewrite cs_raise_to_fold. exact Hm.
  - intros st' Hl Ht. unfold determineTransLevel, Townsville.determineTransLevel.
    now rewrite cs_raise_to_fold, Hl, Ht.
Qed.

Variable isNaN : value -> bool.
Variable hostname : string.
Variable rejects : transport -> option exn.

Lemma cs_getLogLevels_names (lv : list (string * value)) : forall st r st',
  getLogLevels lv st = (r, st') ->
  appName st' = appName st /\ logLevel st' = logLevel st.
Proof.
  induction lv as [|[entry v] lv IH]; intros st r st'; simpl.
  - unfold ret. intros [= <- <-]. now split.
  - unfold bind, lift, modify.
    destruct (numLevel v) as [n|e]; [|intros [= <- <-]; now split].
    intros H. apply IH in H. exact H.
Qed.

(** X20: when the older [init] succeeds on settings with a syslog section,
    the syslog transport is the last transport of the pipeline, after the
    console and file ones; it was accepted by the backend; its application
    name is the one this very [init] resolved ([settings.name], or "logger"
    when absent or empty); its level is the transport level of the new
    tables; it never prints a timestamp of its own; and protocol type and
    source host default to "RFC5425" and to the machine's host name. *)
Theorem cs_init_syslog_transport (s : settings) (st st' : state) (y : syslog_settings) :
  log st = None ->
  init isNaN hostname rejects (Some s) st = (Normal tt, st') ->
  s_syslog s = Some y ->
  exists w pre o,
    log st' = Some w
    /\ transports w = (pre ++ [MappedSyslog o])%list
    /\ Forall (fun t => match t with MappedSyslog _ => False | _ => True end) pre
    /\ rejects (MappedSyslog o) = None
    /\ app_name o = appName st'
    /\ (forall n, s_name s = Some n -> n <> "" -> app_name o = Some n)
    /\ (s_name s = None \/ s_name s = Some "" -> app_name o = Some "logger")
    /\ sl_level o = determineTransLevel st'
    /\ sl_timestamp o = VBool false
    /\ (truthy (sy_type y) = false -> type o = VString "RFC5425")
    /\ (truthy (sy_host y) = false -> localhost o = VString hostname).
Proof.
  intros Hlog Hi Hy. unfold init, evaluateSettings in Hi. rewrite Hlog in Hi.
  unfold bind at 1 in Hi. unfold modify at 1 in Hi. unfold bind at 1 in Hi.
  set (st0 := {| logLevel := logLevel st |}) in Hi.
  assert (Ha0 : appName st0
                = Some (match s_name s with
                        | Some n => if String.eqb n "" then DEFAULT_LOGGER_NAME else n
                        | None => DEFAULT_LOGGER_NAME
                        end)) by reflexivity.
  clearbody st0.
  destruct (match s_levels s with Some lv => getLogLevels lv | None => ret tt end st0)
    as [[[]|e] st1] eqn:E1; [|discriminate].
  assert (Ha1 : appName st1 = appName st0).
  { destruct (s_levels s) as [lv|].
    - now apply cs_getLogLevels_names in E1 as [H _].
    - now injection E1 as <-. }
  clear E1. unfold bind at 1 in Hi.
  destruct ((if truthy (s_level s)
             then let! n := lift (numLevel (s_level s)) in modify (set_logLevel n)
             else ret tt) st1) as [[[]|e] st2] eqn:E2; [|discriminate].
  assert (Ha2 : appName st2 = appName st1).
  { destruct (truthy (s_level s)).
    - unfold bind, lift, modify in E2.
      destruct (numLevel (s_level s)) as [n|e']; [|discriminate].
      now injection E2 as <-.
    - now injection E2 as <-. }
  clear E2. unfold bind at 1 in Hi. unfold gets at 1 in Hi.
  assert (Hname : appName st2
                  = Some (match s_name s with
                          | Some n => if String.eqb n "" then DEFAULT_LOGGER_NAME else n
                          | None => DEFAULT_LOGGER_NAME
                          end)) by congruence.
  clear Ha0 Ha1 Ha2.
  rewrite Hy in Hi.
  unfold getSyslogTransport, bind, gets, construct, ret, throw, modify in Hi.
  assert (Hpre : forall pre,
            Forall (fun t => match t with MappedSyslog _ => False | _ => True end) pre ->
            forall o,
            rejects (MappedSyslog o) = None ->
            app_name o = appName st2 ->
            sl_level o = determineTransLevel st2 ->
            sl_timestamp o = VBool false ->
            (truthy (sy_type y) = false -> type o = VString "RFC5425") ->
            (truthy (sy_host y) = false -> localhost o = VString hostname) ->
            forall lv cl,
            st' = {| logLevel := logLevel st2; logLevels := logLevels st2;
                     appName := appName st2; showName := showName st2;
                     showPid := showPid st2;
                     log := Some {| transports := (pre ++ [MappedSyslog o])%list;
                                    levels := lv; colors := cl |} |} ->
            exists w pre o,
              log st' = Some w
              /\ transports w = (pre ++ [MappedSyslog o])%list
              /\ Forall (fun t => match t with MappedSyslog _ => False | _ => True end) pre
              /\ rejects (MappedSyslog o) = None
              /\ app_name o = appName st'
              /\ (forall n, s_name s = Some n -> n <> "" -> app_name o = Some n)
              /\ (s_name s = None \/ s_name s = Some "" -> app_name o = Some "logger")
              /\ sl_level o = determineTransLevel st'
              /\ sl_timestamp o = VBool false
              /\ (truthy (sy_type y) = false -> type o = VString "RFC5425")
              /\ (truthy (sy_host y) = false -> localhost o = VString hostname)).
  { intros pre Hf o Hr Ha Hl Hts Hty Hlh lv cl ->.
    eexists; exists pre, o. split; [reflexivity|]. split; [reflexivity|].
    split; [exact Hf|]. split; [exact Hr|]. split; [exact Ha|].
    split; [intros n Hs Hne; rewrite Ha, Hname, Hs;
            destruct (String.eqb_spec n ""); [contradiction|reflexivity]|].
    split; [intros [Hs|Hs]; rewrite Ha, Hname, Hs; reflexivity|].
    split; [exact Hl|]. split; [exact Hts|]. split; assumption. }
  assert (Hfile : forall f lvl, match getFileTransport f lvl with
                                | MappedSyslog _ => False | _ => True end).
  { intros f lvl. unfold getFileTransport. destruct (ts_rollingFile f); exact I. }
  destruct (s_console s) as [c|], (s_file s) as [f|];
    repeat match type of Hi with
           | context [rejects ?t] =>
               let E := fresh "E" in
               destruct (rejects t) as [e|] eqn:E; [discriminate Hi|]
           end;
    injection Hi as Hi; symmetry in Hi.
  - eapply (Hpre [getConsoleTransport c (determineTransLevel st2);
                  getFileTransport f (determineTransLevel st2)]);
      [repeat constructor; apply Hfile|eassumption|..|exact Hi];
      first [reflexivity | intros Hf; cbn; rewrite Hf; reflexivity].
  - eapply (Hpre [getConsoleTransport c (determineTransLevel st2)]);
      [repeat constructor|eassumption|..|exact Hi];
      first [reflexivity | intros Hf; cbn; rewrite Hf; reflexivity].
  - eapply (Hpre [getFileTransport f (determineTransLevel st2)]);
      [repeat constructor; apply Hfile|eassumption|..|exact Hi];
      first [reflexivity | intros Hf; cbn; rewrite Hf; reflexivity].
  - eapply (Hpre []);
      [constructor|eassumption|..|exact Hi];
      first [reflexivity | intros Hf; cbn; rewrite Hf; reflexivity].
Qed.

End CsAtWork.

Lemma cs_init_syslog_transport_witness :
  exists w pre o,
    CsLogger.log (snd (CsLogger.init Samples.cs_isNaN "host" Samples.cs_accept_all
                         (Some Samples.cs_bogus_syslog) CsLogger.loaded)) = Some w
    /\ CsLogger.transports w = (pre ++ [CsLogger.MappedSyslog o])%list
    /\ CsLogger.app_name o = Some "mylog"
    /\ CsLogger.type o = VString "RFC5425"
    /\ CsLogger.localhost o = VString "host".
Proof.
  destruct (cs_init_syslog_transport Samples.cs_isNaN "host" Samples.cs_accept_all
              Samples.cs_bogus_syslog CsLogger.loaded
              (snd (CsLogger.init Samples.cs_isNaN "host" Samples.cs_accept_all
                      (Some Samples.cs_bogus_syslog) CsLogger.loaded))
              Samples.cs_bogus_section eq_refl eq_refl eq_refl)
    as (w & pre & o & Hw & Ht & _ & _ & _ & Hn & _ & _ & _ & Hty & Hlh).
  exists w, pre, o. split; [exact Hw|]. split; [exact Ht|].
  split; [apply (Hn "mylog"); [reflexivity|discriminate]|].
  split; [apply Hty; reflexivity|apply Hlh; reflexivity].
Defined.

(** ** The older logger *)
Section CsLoggerCalls.

Import CsLogger CsLoggerClass.

(** X21: once the older entry point is initialized, a severity call never
    throws. A call the logger's level lets through hands winston the first
    argument with the same prefix as the current entry point builds, and the
    other arguments exactly as given, objects included; there is no
    transport counter to stop it. A call the level does not let through
    changes nothing. *)
Theorem cs_severity_call (level : Z) (method : string) (this : logger)
  (args : arguments) (w : world) (wl : winston_logger) (sn : Z) (sp : bool)
  (app : string) :
  log (vars w) = Some wl ->
  showName (vars w) = Some sn ->
  sn = SN_NONE \/ sn = SN_SIMPLE \/ sn = SN_FULL ->
  showPid (vars w) = Some sp ->
  appName (vars w) = Some app ->
  severity level method this args w
  = (Normal tt,
     if js_ge (_level this) level
     then {| vars := vars w;
             sent := (sent w
                      ++ [(method,
                           VString (Spec.first_argument sn sp app (_name this)
                                      (_pid this) (arg0 args))
                           :: rest args)])%list |}
     else w).
Proof.
  intros Ew Hsn Hc Hsp Happ.
  unfold severity, bind, _isToLog. rewrite Ew.
  destruct (js_ge (_level this) level); [|reflexivity].
  unfold _addToArgs. rewrite Hsn, Hsp, Happ.
  destruct Hc as [-> | [-> | ->]], sp; simpl; unfold emit; rewrite Ew; simpl;
    unfold Spec.first_argument, Spec.addon, Spec.name_part, format_d; simpl;
    repeat (rewrite append_assoc || rewrite append_cons || rewrite append_nil_l);
    reflexivity.
Qed.

End CsLoggerCalls.

Lemma cs_severity_call_witness :
  let st := snd (CsLogger.init Samples.cs_isNaN "host" Samples.cs_accept_all
                   (Some Samples.cs_bogus_syslog) CsLogger.loaded) in
  let w := {| CsLoggerClass.vars := st; CsLoggerClass.sent := [] |} in
  CsLoggerClass.info (CsLoggerClass.CsLogger 7 "noot" st)
    {| CsLoggerClass.arg0 := "state"; CsLoggerClass.rest := [VObject JsonThrows] |} w
  = (Normal tt,
     {| CsLoggerClass.vars := st;
        CsLoggerClass.sent := [("info", [VString "state"; VObject JsonThrows])] |}).
Proof.
  intros st w.
  destruct (CsLogger.log st) as [wl|] eqn:Ew; [|discriminate Ew].
  apply (cs_severity_call CsLogger.NR_INFO "info" (CsLoggerClass.CsLogger 7 "noot" st)
           {| CsLoggerClass.arg0 := "state"; CsLoggerClass.rest := [VObject JsonThrows] |}
           w wl CsLogger.SN_NONE false "mylog"); try reflexivity.
  - exact Ew.
  - left; reflexivity.
Defined.

Lemma syslog_level_of_rank_witness :
  MappedSyslog.syslogLevel (CsLogger.strLevel 50) = "debug"
  /\ MappedSyslog.syslogLevel (CsLogger.strLevel 40) = "debug".
Proof.
  split.
  - apply (proj1 (proj2 (syslog_level_of_rank 50))). vm_compute. lia.
  - apply (proj1 (proj2 (syslog_level_of_rank 40))). vm_compute. lia.
Defined.

Lemma cs_determineTransLevel_least_severe_witness :
  Townsville.determineTransLevel
    (snd (Townsville.init Samples.accept_all (Some Samples.aap_error) Townsville.loaded))
  = CsLogger.determineTransLevel
      {| CsLogger.logLevel := 30; CsLogger.logLevels := {[ "aap" := 10 ]};
         CsLogger.appName := None; CsLogger.showName := None;
         CsLogger.showPid := None; CsLogger.log := None |}.
Proof.
  apply (proj2 (cs_determineTransLevel_least_severe
                  {| CsLogger.logLevel := 30; CsLogger.logLevels := {[ "aap" := 10 ]};
                     CsLogger.appName := None; CsLogger.showName := None;
                     CsLogger.showPid := None; CsLogger.log := None |}));
    reflexivity.
Defined.
